(** * canvas-calendar-export: the collection pipeline of [main.py]

    A shallow embedding of [src/main.py] and the properties its
    specification states about it.

    Conventions of the embedding.
    - A Python [str] is a list of code points ([list N]), so that [len]
      is [length], [+] is [++] and [lstrip] sees Unicode white space.
      [lit] turns an ASCII literal into such a list.
    - A decoded JSON object ([dict]) is a record of the keys the program
      reads, at the types of the annotations; [None] is a missing key or a
      JSON [null] ([dict.get] answers [None] for both).
    - Exceptions are values of [exn]; a call that may raise returns a
      [result], and a call that also loops over the network returns an
      [outcome], whose third case is an exhausted iteration bound.
    - The HTTP server, the date library, the calendar library and the
      interactive prompts are not part of the repository: they are
      parameters ([Http], [DateLib], [IcsLib], [User]).  The server
      answers a request the same way throughout a run. *)

From Stdlib Require Import ZArith NArith String Ascii List Lia Bool.
From stdpp Require Import base option list gmap pretty.

Local Open Scope Z_scope.
Local Open Scope list_scope.

(** ** Strings *)

Abbreviation str := (list N).

Definition lit (s : string) : str :=
  N_of_ascii <$> list_ascii_of_string s.

(** [str(n)] for an [int]. *)
Definition str_of_int (n : Z) : str := lit (pretty n).

Definition newline : N := 10%N.
Definition space : N := 32%N.
Definition hyphen : N := 45%N.
(** U+2022 BULLET and U+2014 EM DASH of the bullet line. *)
Definition bullet : N := 8226%N.
Definition em_dash : N := 8212%N.

(** The characters [str.lstrip()] removes: those for which
    [str.isspace] holds. *)
Definition is_space (c : N) : bool :=
  ((9 <=? c) && (c <=? 13) || (28 <=? c) && (c <=? 32)
   || (c =? 133) || (c =? 160) || (c =? 5760)
   || (8192 <=? c) && (c <=? 8202)
   || (c =? 8232) || (c =? 8233) || (c =? 8239) || (c =? 8287)
   || (c =? 12288))%N.

Fixpoint lstrip (s : str) : str :=
  match s with
  | c :: s' => if is_space c then lstrip s' else s
  | [] => []
  end.

(** [s.rstrip("/")] *)
Definition rstrip_slash (s : str) : str :=
  reverse ((fix go (r : str) : str :=
              match r with
              | c :: r' => if (c =? 47)%N then go r' else r
              | [] => []
              end) (reverse s)).

(** [sep.join(lines)] *)
Fixpoint join (sep : str) (lines : list str) : str :=
  match lines with
  | [] => []
  | [l] => l
  | l :: rest => l ++ sep ++ join sep rest
  end.

(** ** Truth values of Python objects *)

Class Truthy (A : Type) := truthy : A → bool.
Global Hint Mode Truthy ! : typeclass_instances.

Global Instance truthy_list {A} : Truthy (list A) :=
  λ l, match l with [] => false | _ :: _ => true end.
Global Instance truthy_int : Truthy Z := λ n, negb (n =? 0).
Global Instance truthy_option {A} `{Truthy A} : Truthy (option A) :=
  λ o, match o with None => false | Some x => truthy x end.

(** [x or y] at type [Optional[str]], and with a [str] on the right. *)
Definition or_opt (x y : option str) : option str :=
  if truthy x then x else y.
Definition or_str (x : option str) (y : str) : str :=
  match x with
  | Some s => if truthy s then s else y
  | None => y
  end.

(** ** Exceptions and results

    Every class of [exn] derives from [Exception], so [except Exception]
    catches all of them.  [sys.exit] is the [Exit] case of [outcome]. *)

Inductive exn :=
| ValueError
| TypeError
| OverflowError
| IndexError
| HTTPError (msg : str)
| Exception (msg : str).

(** [except (ValueError, TypeError)] *)
Definition is_ValueError_or_TypeError (e : exn) : bool :=
  match e with ValueError | TypeError => true | _ => false end.

(** [except requests.HTTPError] *)
Definition is_HTTPError (e : exn) : bool :=
  match e with HTTPError _ => true | _ => false end.

Inductive result (A : Type) :=
| Ok (a : A)
| Raised (e : exn).
Arguments Ok {A} a.
Arguments Raised {A} e.

Inductive outcome (A : Type) :=
| Return (a : A)
| Raise (e : exn)
| Exit (code : Z)
| OutOfFuel.
Arguments Return {A} a.
Arguments Raise {A} e.
Arguments Exit {A} code.
Arguments OutOfFuel {A}.

Global Instance result_ret : MRet result := @Ok.
Global Instance result_bind : MBind result := λ A B f m,
  match m with Ok a => f a | Raised e => Raised e end.

Global Instance outcome_ret : MRet outcome := @Return.
Global Instance outcome_bind : MBind outcome := λ A B f m,
  match m with
  | Return a => f a
  | Raise e => Raise e
  | Exit code => Exit code
  | OutOfFuel => OutOfFuel
  end.

Definition lift {A} (r : result A) : outcome A :=
  match r with Ok a => Return a | Raised e => Raise e end.

(** ** Data model *)

(** A decoded JSON object, by the keys the program reads. *)
Record dict := {
  get_id : option Z;
  get_name : option str;
  get_course_code : option str;
  get_due_at : option str;
  get_html_url : option str
}.

Record Assignment := {
  course_name : str;
  name : str;
  due_at : option str;
  html_url : option str
}.

(** ** The outside world *)

(** [requests]: what a GET answers.  [http_error] is the message of the
    [HTTPError] that [raise_for_status] raises, if the status is an
    error; [links_next] is [response.links["next"]["url"]], if the
    response has a [next] relation. *)
Record Response := {
  http_error : option str;
  json : list dict;
  links_next : option str
}.

Class Http := http_get : list (str * str) → str → list (str * str) → Response.

Record Session := { headers : list (str * str) }.

(** [dateutil] and [datetime]. *)
Class DateLib := {
  datetime : Type;
  isoparse : str → result datetime;
  astimezone : datetime → result datetime;
  strftime : datetime → str → result str;
  parse : str → result datetime
}.

(** [os.getenv] *)
Class Environ := getenv : str → option str.

(** [inquirer.prompt]: the answer to each of the three questions, [None]
    when the prompt yields no answer. *)
Class User := {
  answer_courses : list (str * Z) → option (list Z);
  answer_mode : list (str * str) → option str;
  answer_assignments : list (str * nat) → option (list nat)
}.

(** ** The program *)

Section Program.
Context `{Http} `{DateLib}.

Definition session_get (session : Session) (url : str) (params : list (str * str))
  : Response :=
  http_get (headers session) url params.

Definition raise_for_status (response : Response) : result unit :=
  match http_error response with
  | Some msg => Raised (HTTPError msg)
  | None => Ok tt
  end.

(** What the generator [paginate] does when it is driven to its end: the
    pages it yields, in order, and how it ends. *)
Inductive pages :=
| Stop
| Yield (page : list dict) (rest : pages)
| Throw (e : exn)
| Pending.

(** [fuel] bounds the number of requests; [Pending] is a run that wants
    one more. *)
Fixpoint paginate (fuel : nat) (session : Session) (url : option str)
    (params : list (str * str)) : pages :=
  if truthy url then
    match fuel with
    | O => Pending
    | S fuel' =>
        let response := session_get session (default [] url) params in
        match raise_for_status response with
        | Raised e => Throw e
        | Ok _ =>
            Yield (json response)
              (paginate fuel' session (links_next response) [])
        end
    end
  else Stop.

(** [for page in pages: acc.extend(page)] *)
Fixpoint extend_all (acc : list dict) (g : pages) : outcome (list dict) :=
  match g with
  | Stop => Return acc
  | Yield page rest => extend_all (acc ++ page) rest
  | Throw e => Raise e
  | Pending => OutOfFuel
  end.

Definition courses_url (base_url : str) : str :=
  base_url ++ lit "/api/v1/courses".

Definition courses_params : list (str * str) :=
  [ (lit "enrollment_state", lit "active");
    (lit "per_page", lit "100");
    (lit "include[]", lit "term") ].

Definition fetch_courses (fuel : nat) (session : Session) (base_url : str)
  : outcome (list dict) :=
  extend_all [] (paginate fuel session (Some (courses_url base_url)) courses_params).

Definition assignments_url (base_url : str) (course_id : Z) : str :=
  base_url ++ lit "/api/v1/courses/" ++ str_of_int course_id ++ lit "/assignments".

Definition assignments_params : list (str * str) :=
  [ (lit "per_page", lit "100");
    (lit "include[]", lit "submission");
    (lit "order_by", lit "due_at") ].

Definition fetch_assignments (fuel : nat) (session : Session) (base_url : str)
    (course_id : Z) : outcome (list dict) :=
  extend_all []
    (paginate fuel session (Some (assignments_url base_url course_id))
       assignments_params).

Definition display_format : str := lit "%Y-%m-%d %H:%M %Z".

(** Used for printing.  The three library calls of the [try] body run in
    sequence; the handler catches [ValueError] and [TypeError] only. *)
Definition parse_due_at (due_at : option str) : result (option str) :=
  if negb (truthy due_at) then Ok None
  else
    match (dt ← isoparse (default [] due_at);
           local ← astimezone dt;
           strftime local display_format) with
    | Ok text => Ok (Some text)
    | Raised e =>
        if is_ValueError_or_TypeError e then Ok due_at else Raised e
    end.

(** [{c["id"]: c for c in courses if c.get("id")}]: a later record
    replaces an earlier one with the same id. *)
Definition course_map_of (courses : list dict) : gmap Z dict :=
  foldl (λ (m : gmap Z dict) c,
           if truthy (get_id c)
           then match get_id c with Some k => <[k:=c]> m | None => m end
           else m)
        ∅ courses.

(** [course.get("name") or course.get("course_code") or f"Course {course_id}"] *)
Definition course_name_of (course : dict) (course_id : Z) : str :=
  or_str (or_opt (get_name course) (get_course_code course))
         (lit "Course " ++ str_of_int course_id).

(** The [Assignment(...)] expression of the inner loop. *)
Definition make_assignment (course_name : str) (item : dict)
  : result Assignment :=
  due ← parse_due_at (get_due_at item);
  mret {| course_name := course_name;
          name := or_str (get_name item) (lit "Untitled");
          due_at := due;
          html_url := get_html_url item |}.

(** The inner loop: [results.append(Assignment(...))] for each item. *)
Fixpoint append_items (course_name : str) (items : list dict)
    (results : list Assignment) : result (list Assignment) :=
  match items with
  | [] => Ok results
  | item :: rest =>
      a ← make_assignment course_name item;
      append_items course_name rest (results ++ [a])
  end.

(** The outer loop.  A record of [course_map] holds an id, so [not course]
    is the case of a missing key. *)
Fixpoint collect_loop (fuel : nat) (session : Session) (base_url : str)
    (course_map : gmap Z dict) (selected_course_ids : list Z)
    (results : list Assignment) : outcome (list Assignment) :=
  match selected_course_ids with
  | [] => Return results
  | course_id :: rest =>
      match course_map !! course_id with
      | None => collect_loop fuel session base_url course_map rest results
      | Some course =>
          let course_name := course_name_of course course_id in
          items ← fetch_assignments fuel session base_url course_id;
          results' ← lift (append_items course_name items results);
          collect_loop fuel session base_url course_map rest results'
      end
  end.

Definition collect_assignments (fuel : nat) (session : Session) (base_url : str)
    (selected_course_ids : list Z) : outcome (list Assignment) :=
  courses ← fetch_courses fuel session base_url;
  collect_loop fuel session base_url (course_map_of courses)
    selected_course_ids [].

(** The loop of [format_output]: [current_course] starts as [None]. *)
Fixpoint format_lines (assignments : list Assignment)
    (current_course : option str) (lines : list str) : list str :=
  match assignments with
  | [] => lines
  | assignment :: rest =>
      let new_course :=
        negb (bool_decide (Some (course_name assignment) = current_course)) in
      let current_course' :=
        if new_course then Some (course_name assignment) else current_course in
      let lines1 :=
        if new_course
        then lines ++ [ []; course_name assignment;
                        replicate (length (course_name assignment)) hyphen ]
        else lines in
      let due_display := or_str (due_at assignment) (lit "No due date") in
      let url_display :=
        if truthy (html_url assignment)
        then lit " (" ++ default [] (html_url assignment) ++ lit ")"
        else [] in
      format_lines rest current_course'
        (lines1 ++ [ [bullet; space] ++ name assignment
                     ++ [space; em_dash; space] ++ due_display ++ url_display ])
  end.

Definition format_output (assignments : list Assignment) : str :=
  if negb (truthy assignments) then lit "No assignments found."
  else lstrip (join [newline] (format_lines assignments None [])).

(** [ics]: the attributes of an event that the program sets. *)
Record Event := {
  event_name : str;
  event_begin : datetime;
  event_url : str;
  event_description : str
}.

(** What the program does to the outside: [OpenFile] is
    [open(filename, "w")], which creates or empties the file, and
    [WriteFile] the events that [f.writelines(cal)] wrote, in the order
    it wrote them. *)
Inductive effect :=
| Print (text : str)
| PrintErr (text : str)
| OpenFile (filename : str)
| WriteFile (filename : str) (events : list Event).

(** [ics], the library.  [cal.events] is a Python set: [event_set] is its
    type, [no_events] what [Calendar()] starts with, [add_event] is
    [cal.events.add(event)] and [iterate] the order in which the set is
    gone through when the calendar is written, of which only the
    elements are known (no two events merge: each [Event()] has a uid of
    its own).  [begin_error] is what [event.begin = dt] raises, if
    anything, and [write_error] what serialising the calendar raises
    under [f.writelines(cal)], before a line is written.  The library
    raises no [requests.HTTPError]. *)
Class IcsLib := {
  event_set : Type;
  no_events : event_set;
  add_event : Event → event_set → event_set;
  iterate : event_set → list Event;
  begin_error : datetime → option exn;
  write_error : event_set → option exn;
  iterate_no_events : iterate no_events = [];
  iterate_add_event :
    ∀ event cal, iterate (add_event event cal) ≡ₚ event :: iterate cal;
  begin_error_not_http :
    ∀ dt e, begin_error dt = Some e → is_HTTPError e = false;
  write_error_not_http :
    ∀ cal e, write_error cal = Some e → is_HTTPError e = false
}.

Context `{IcsLib}.

(** The loop of [create_ics].  Only the parse stands inside the [try]. *)
Fixpoint add_events (assignments : list Assignment) (cal : event_set)
  : result event_set :=
  match assignments with
  | [] => Ok cal
  | a :: rest =>
      if negb (truthy (due_at a)) then add_events rest cal
      else
        match parse (default [] (due_at a)) with
        | Raised _ => add_events rest cal
        | Ok dt =>
            match begin_error dt with
            | Some e => Raised e
            | None =>
                add_events rest
                  (add_event
                     {| event_name := name a;
                        event_begin := dt;
                        event_url := or_str (html_url a) [];
                        event_description :=
                          lit "Course: " ++ course_name a |}
                     cal)
            end
        end
  end.

Definition create_ics (assignments : list Assignment) (filename : str)
  : list effect * result unit :=
  match add_events assignments no_events with
  | Raised e => ([], Raised e)
  | Ok cal =>
      match write_error cal with
      | Some e => ([OpenFile filename], Raised e)
      | None =>
          ([ OpenFile filename;
             WriteFile filename (iterate cal);
             Print ([newline] ++ lit "Created calendar file: " ++ filename) ],
           Ok tt)
      end
  end.

Definition default_filename : str := lit "assignments.ics".

Context `{Environ} `{User}.

Definition get_env (name : str) : list effect * outcome str :=
  let value := getenv name in
  if negb (truthy value)
  then ([PrintErr (lit "Missing required environment variable: " ++ name)],
        Exit 1)
  else ([], Return (default [] value)).

Definition make_session : list effect * outcome Session :=
  let '(out, token) := get_env (lit "CANVAS_API_TOKEN") in
  (out, token ← token;
        mret {| headers := [(lit "Authorization", lit "Bearer " ++ token)] |}).

Definition course_choices (courses : list dict) : list (str * Z) :=
  omap (λ c,
          if truthy (get_id c)
          then (λ k, (or_str (or_opt (get_name c) (get_course_code c))
                             (lit "Course " ++ str_of_int k), k)) <$> get_id c
          else None)
       courses.

Definition prompt_course_selection (courses : list dict) : list Z :=
  default [] (answer_courses (course_choices courses)).

Definition prompt_export_mode : str :=
  default (lit "all")
    (answer_mode [ (lit "All assignments", lit "all");
                   (lit "Select assignments", lit "select") ]).

Definition assignment_label (a : Assignment) : str :=
  course_name a ++ [space; em_dash; space] ++ name a
  ++ [space; em_dash; space] ++ or_str (due_at a) (lit "No due date").

(** [[assignments[i] for i in answers["assignments"]]]: an index past the
    end raises [IndexError]. *)
Fixpoint pick (assignments : list Assignment) (indices : list nat)
  : result (list Assignment) :=
  match indices with
  | [] => Ok []
  | i :: rest =>
      match assignments !! i with
      | None => Raised IndexError
      | Some a => chosen ← pick assignments rest; mret (a :: chosen)
      end
  end.

Definition prompt_assignment_selection (assignments : list Assignment)
  : result (list Assignment) :=
  if negb (truthy assignments) then Ok []
  else
    match answer_assignments (imap (λ idx a, (assignment_label a, idx)) assignments) with
    | None => Ok []
    | Some indices => pick assignments indices
    end.

(** The body of the [try] statement of [main]: an early [return] with a
    status, or the assignments. *)
Definition main_try (fuel : nat) (session : Session) (base_url : str)
  : list effect * outcome (Z + list Assignment) :=
  match fetch_courses fuel session base_url with
  | Return courses =>
      if negb (truthy courses)
      then ([Print (lit "No courses found.")], Return (inl 1))
      else
        let selected_course_ids := prompt_course_selection courses in
        if negb (truthy selected_course_ids) then ([], Return (inl 0))
        else
          ([], assignments ← collect_assignments fuel session base_url
                                selected_course_ids;
               mret (inr assignments))
  | Raise e => ([], Raise e)
  | Exit code => ([], Exit code)
  | OutOfFuel => ([], OutOfFuel)
  end.

(** What follows the [try] statement. *)
Definition main_export (assignments : list Assignment)
  : list effect * outcome Z :=
  let out := [Print (format_output assignments)] in
  let export_mode := prompt_export_mode in
  if bool_decide (export_mode = lit "select") then
    match prompt_assignment_selection assignments with
    | Raised e => (out, Raise e)
    | Ok chosen =>
        if negb (truthy chosen)
        then (out ++ [Print (lit "No assignment selected. Exiting.")], Return 0)
        else
          let '(written, r) := create_ics chosen default_filename in
          (out ++ written, lift r ≫= λ _, Return 0)
    end
  else
    let '(written, r) := create_ics assignments default_filename in
    (out ++ written, lift r ≫= λ _, Return 0).

Definition main (fuel : nat) : list effect * outcome Z :=
  match get_env (lit "CANVAS_BASE_URL") with
  | (out, Raise e) => (out, Raise e)
  | (out, Exit code) => (out, Exit code)
  | (out, OutOfFuel) => (out, OutOfFuel)
  | (out, Return value) =>
      let base_url := rstrip_slash value in
      match make_session with
      | (out1, Raise e) => (out ++ out1, Raise e)
      | (out1, Exit code) => (out ++ out1, Exit code)
      | (out1, OutOfFuel) => (out ++ out1, OutOfFuel)
      | (out1, Return session) =>
          match main_try fuel session base_url with
          | (out2, Raise e) =>
              if is_HTTPError e
              then (out ++ out1 ++ out2,
                    Raise (Exception (lit "API request failed: {err}")))
              else (out ++ out1 ++ out2, Raise e)
          | (out2, Exit code) => (out ++ out1 ++ out2, Exit code)
          | (out2, OutOfFuel) => (out ++ out1 ++ out2, OutOfFuel)
          | (out2, Return (inl status)) => (out ++ out1 ++ out2, Return status)
          | (out2, Return (inr assignments)) =>
              let '(out3, r) := main_export assignments in
              (out ++ out1 ++ out2 ++ out3, r)
          end
      end
  end.

End Program.

(** ** The vocabulary of the specification *)

Section Vocabulary.
Context `{Http} `{DateLib} `{IcsLib} `{Environ}.

(** A paginated source as the server presents it from [url]: the pages
    reached by following the [next] relations, the last of which carries
    none.  It has no page when there is no URL to ask. *)
Inductive source (session : Session)
  : option str → list (str * str) → list (list dict) → Prop :=
| source_end url params :
    truthy url = false → source session url params []
| source_page url params rest :
    truthy url = true →
    http_error (session_get session (default [] url) params) = None →
    source session
      (links_next (session_get session (default [] url) params)) [] rest →
    source session url params
      (json (session_get session (default [] url) params) :: rest).

(** The generator that yields the given pages and stops. *)
Definition yields (ps : list (list dict)) : pages := foldr Yield Stop ps.

(** The three library calls of [parse_due_at], in sequence. *)
Definition render (s : str) : result str :=
  dt ← isoparse s; local ← astimezone dt; strftime local display_format.

(** The values [parse_due_at] can hand back: nothing, the text the
    library rendered, or the input itself when the library raised
    [ValueError] or [TypeError]. *)
Inductive normalised : option str → Prop :=
| normalised_absent : normalised None
| normalised_display raw text :
    render raw = Ok text → normalised (Some text)
| normalised_raw raw e :
    raw ≠ [] → render raw = Raised e →
    is_ValueError_or_TypeError e = true → normalised (Some raw).

(** The canonical list in the words of the specification: per selected id,
    in the order given, nothing for an id the lookup does not hold, and
    otherwise one record per upstream record, in upstream order. *)
Definition spec_block (course_map : gmap Z dict) (upstream : Z → list dict)
    (course_id : Z) : result (list Assignment) :=
  match course_map !! course_id with
  | None => Ok []
  | Some course =>
      mapM (make_assignment (course_name_of course course_id))
        (upstream course_id)
  end.

Definition spec_collect (course_map : gmap Z dict) (upstream : Z → list dict)
    (selected_course_ids : list Z) : result (list Assignment) :=
  blocks ← mapM (spec_block course_map upstream) selected_course_ids;
  mret (concat blocks).

(** What becomes of one assignment, in the words of the specification:
    skipped when [due_at] is absent (null or empty) or does not parse, and
    otherwise one event. *)
Inductive exported (a : Assignment) : option Event → Prop :=
| skipped_absent :
    truthy (due_at a) = false → exported a None
| skipped_unparseable s e :
    due_at a = Some s → s ≠ [] → parse s = Raised e → exported a None
| emitted s dt :
    due_at a = Some s → s ≠ [] → parse s = Ok dt →
    exported a
      (Some {| event_name := name a;
               event_begin := dt;
               event_url := or_str (html_url a) [];
               event_description := lit "Course: " ++ course_name a |}).

(** The session [make_session] builds from the token. *)
Definition session_of (token : str) : Session :=
  {| headers := [(lit "Authorization", lit "Bearer " ++ token)] |}.

(** Both environment variables are set, to [value] and [token]. *)
Definition configured (value token : str) : Prop :=
  getenv (lit "CANVAS_BASE_URL") = Some value ∧ value ≠ []
  ∧ getenv (lit "CANVAS_API_TOKEN") = Some token ∧ token ≠ [].

(** How the [due_at] of a record comes from the [due_at] of the upstream
    record it is built from. *)
Inductive normalised_from (upstream : option str) : option str → Prop :=
| from_absent :
    truthy upstream = false → normalised_from upstream None
| from_display raw text :
    upstream = Some raw → raw ≠ [] → render raw = Ok text →
    normalised_from upstream (Some text)
| from_raw raw e :
    upstream = Some raw → raw ≠ [] → render raw = Raised e →
    is_ValueError_or_TypeError e = true →
    normalised_from upstream (Some raw).

(** A source that breaks: [n] pages arrive, and the request after them is
    answered with an HTTP error of message [msg]. *)
Inductive fails_after (session : Session)
  : option str → list (str * str) → nat → str → Prop :=
| fails_now url params msg :
    truthy url = true →
    http_error (session_get session (default [] url) params) = Some msg →
    fails_after session url params 0 msg
| fails_later url params n msg :
    truthy url = true →
    http_error (session_get session (default [] url) params) = None →
    fails_after session
      (links_next (session_get session (default [] url) params)) [] n msg →
    fails_after session url params (S n) msg.

(** The date library raises nothing that the handler of [parse_due_at]
    does not catch, on the [due_at] of any of the [items]. *)
Definition dates_safe_on (items : list dict) : Prop :=
  ∀ item s e,
    item ∈ items → get_due_at item = Some s → render s = Raised e →
    is_ValueError_or_TypeError e = true.

(** The record that an upstream record becomes when date handling does
    not raise. *)
Definition canonical (cn : str) (item : dict) : Assignment :=
  {| course_name := cn;
     name := or_str (get_name item) (lit "Untitled");
     due_at := match parse_due_at (get_due_at item) with
               | Ok due => due
               | Raised _ => None
               end;
     html_url := get_html_url item |}.

Definition canonical_block (course_map : gmap Z dict)
    (upstream : Z → list dict) (course_id : Z) : list Assignment :=
  match course_map !! course_id with
  | None => []
  | Some course =>
      canonical (course_name_of course course_id) <$> upstream course_id
  end.

(** The runs of consecutive assignments of one course name, each with its
    name, in the order of the list. *)
Fixpoint groups (assignments : list Assignment)
  : list (str * list Assignment) :=
  match assignments with
  | [] => []
  | a :: rest =>
      match groups rest with
      | (cn, items) :: gs =>
          if bool_decide (course_name a = cn)
          then (cn, a :: items) :: gs
          else (course_name a, [a]) :: (cn, items) :: gs
      | [] => [(course_name a, [a])]
      end
  end.

(** The line of one assignment, and the lines of one run: a blank line,
    the header, the underline and the bullets. *)
Definition bullet_line (a : Assignment) : str :=
  [bullet; space] ++ name a ++ [space; em_dash; space]
  ++ or_str (due_at a) (lit "No due date")
  ++ (if truthy (html_url a)
      then lit " (" ++ default [] (html_url a) ++ lit ")"
      else []).

Definition group_lines (g : str * list Assignment) : list str :=
  [ []; g.1; replicate (length g.1) hyphen ] ++ (bullet_line <$> g.2).

End Vocabulary.

(** ** A sample world

    One concrete instance of each parameter, on which the theorems below
    are exercised: a date library for a machine whose local zone is the
    fixed offset UTC-05:00 ("EST"), a two-page course list with two
    assignment lists behind it, and a user who answers the prompts. *)

Module Sample.

Record civil := {
  year : Z; month : Z; day : Z; hour : Z; minute : Z;
  tzname : str
}.

Definition is_leap (y : Z) : bool :=
  (y mod 4 =? 0) && (negb (y mod 100 =? 0) || (y mod 400 =? 0)).

Definition days_in_month (y m : Z) : Z :=
  if m =? 2 then (if is_leap y then 29 else 28)
  else if (m =? 4) || (m =? 6) || (m =? 9) || (m =? 11) then 30 else 31.

Definition digit (c : N) : option Z :=
  if ((48 <=? c) && (c <=? 57))%N then Some (Z.of_N c - 48) else None.

Fixpoint number (acc : Z) (s : str) : option Z :=
  match s with
  | [] => Some acc
  | c :: s' => d ← digit c; number (10 * acc + d) s'
  end.

Definition in_range (c : civil) : bool :=
  (1 <=? year c) && (year c <=? 9999) && (1 <=? month c) && (month c <=? 12)
  && (1 <=? day c) && (day c <=? days_in_month (year c) (month c))
  && (0 <=? hour c) && (hour c <=? 23) && (0 <=? minute c) && (minute c <=? 59).

Definition checked (c : option civil) : result civil :=
  match c with
  | Some c => if in_range c then Ok c else Raised ValueError
  | None => Raised ValueError
  end.

(** [YYYY-MM-DDTHH:MM:SSZ], the form Canvas sends. *)
Definition utc_isoparse (s : str) : result civil :=
  checked
    (if bool_decide (length s = 20%nat
                     ∧ s !! 4%nat = Some 45%N ∧ s !! 7%nat = Some 45%N
                     ∧ s !! 10%nat = Some 84%N ∧ s !! 13%nat = Some 58%N
                     ∧ s !! 16%nat = Some 58%N ∧ s !! 19%nat = Some 90%N)
     then
       y ← number 0 (take 4 s);
       m ← number 0 (take 2 (drop 5 s));
       d ← number 0 (take 2 (drop 8 s));
       h ← number 0 (take 2 (drop 11 s));
       mi ← number 0 (take 2 (drop 14 s));
       _ ← number 0 (take 2 (drop 17 s));
       Some {| year := y; month := m; day := d; hour := h; minute := mi;
               tzname := lit "UTC" |}
     else None).

(** Five hours back; a date before year 1 is out of range. *)
Definition est_astimezone (c : civil) : result civil :=
  if bool_decide (tzname c = lit "EST") then Ok c
  else if 5 <=? hour c then
    Ok {| year := year c; month := month c; day := day c;
          hour := hour c - 5; minute := minute c; tzname := lit "EST" |}
  else if 1 <? day c then
    Ok {| year := year c; month := month c; day := day c - 1;
          hour := hour c + 19; minute := minute c; tzname := lit "EST" |}
  else if 1 <? month c then
    Ok {| year := year c; month := month c - 1;
          day := days_in_month (year c) (month c - 1);
          hour := hour c + 19; minute := minute c; tzname := lit "EST" |}
  else if 1 <? year c then
    Ok {| year := year c - 1; month := 12; day := 31;
          hour := hour c + 19; minute := minute c; tzname := lit "EST" |}
  else Raised OverflowError.

Definition pad (width : nat) (n : Z) : str :=
  let s := str_of_int n in
  replicate (width - length s) 48%N ++ s.

(** The one format the program asks for. *)
Definition est_strftime (c : civil) (fmt : str) : result str :=
  Ok (pad 4 (year c) ++ [hyphen] ++ pad 2 (month c) ++ [hyphen]
      ++ pad 2 (day c) ++ [space] ++ pad 2 (hour c) ++ [58%N]
      ++ pad 2 (minute c) ++ [space] ++ tzname c).

(** [YYYY-MM-DD HH:MM EST], the form [strftime] writes. *)
Definition est_parse (s : str) : result civil :=
  checked
    (if bool_decide (length s = 20%nat
                     ∧ s !! 4%nat = Some 45%N ∧ s !! 7%nat = Some 45%N
                     ∧ s !! 10%nat = Some 32%N ∧ s !! 13%nat = Some 58%N
                     ∧ drop 16 s = lit " EST")
     then
       y ← number 0 (take 4 s);
       m ← number 0 (take 2 (drop 5 s));
       d ← number 0 (take 2 (drop 8 s));
       h ← number 0 (take 2 (drop 11 s));
       mi ← number 0 (take 2 (drop 14 s));
       Some {| year := y; month := m; day := d; hour := h; minute := mi;
               tzname := lit "EST" |}
     else None).

Definition dates : DateLib :=
  {| datetime := civil; isoparse := utc_isoparse;
     astimezone := est_astimezone; strftime := est_strftime;
     parse := est_parse |}.

Definition record (i : option Z) (n c d u : option string) : dict :=
  {| get_id := i; get_name := lit <$> n; get_course_code := lit <$> c;
     get_due_at := lit <$> d; get_html_url := lit <$> u |}.

Definition math := record (Some 101) (Some "Math") (Some "MATH-1") None None.
Definition ghost := record (Some 0) (Some "Ghost") None None None.
Definition nameless := record None (Some "Null") None None None.
Definition bare := record (Some 102) None None None None.
Definition art := record (Some 103) (Some "") (Some "ART-1") None None.

Definition hw1 :=
  record None (Some "HW1") None (Some "2024-01-15T10:00:00Z")
    (Some "https://canvas.test/a/1").
Definition untitled := record None None None (Some "next Tuesday") None.
Definition essay := record None (Some "Essay") None None None.
Definition haunted := record None (Some "Boo") None None None.

Definition base : str := lit "https://canvas.test".
Definition page2 : str := lit "?page=2".

Definition ok (body : list dict) (next : option str) : Response :=
  {| http_error := None; json := body; links_next := next |}.
Definition failed (msg : string) : Response :=
  {| http_error := Some (lit msg); json := []; links_next := None |}.

Definition authorised : Session :=
  {| headers := [(lit "Authorization", lit "Bearer secret")] |}.

Definition routes : list (str * list (str * str) * Response) :=
  [ (courses_url base, courses_params,
     ok [math; ghost; nameless] (Some (courses_url base ++ page2)));
    (courses_url base ++ page2, [], ok [bare; art] None);
    (assignments_url base 101, assignments_params,
     ok [hw1; untitled] (Some (assignments_url base 101 ++ page2)));
    (assignments_url base 101 ++ page2, [], ok [hw1] None);
    (assignments_url base 102, assignments_params, ok [essay] None);
    (assignments_url base 0, assignments_params, ok [haunted] None);
    (assignments_url base 103, assignments_params,
     failed "500 Server Error") ].

Definition server : Http := λ hdrs url params,
  if bool_decide (hdrs = headers authorised) then
    match list_find (λ r, r.1 = (url, params)) routes with
    | Some (_, r) => r.2
    | None => failed "404 Client Error"
    end
  else failed "401 Client Error".

(** A server that presents the given pages, whatever they are: page [i]
    is behind the URL of [i + 1] letters, and every page but the last
    names the next one. *)
Definition page_url (i : nat) : str := replicate (S i) 112%N.

Definition paged_server (ps : list (list dict)) : Http := λ _ url _,
  let i := (length url - 1)%nat in
  {| http_error := None;
     json := default [] (ps !! i);
     links_next :=
       if (S i <? length ps)%nat then Some (page_url (S i)) else None |}.

(** A server with no course at all, and one that is down. *)
Definition empty_server : Http := λ _ _ _, ok [] None.
Definition down_server : Http := λ _ _ _, failed "503 Server Error".

Definition environ : Environ := λ name,
  if bool_decide (name = lit "CANVAS_BASE_URL") then Some (base ++ lit "/")
  else if bool_decide (name = lit "CANVAS_API_TOKEN") then Some (lit "secret")
  else None.

Definition user (courses : option (list Z)) (mode : option string)
    (picked : option (list nat)) : User :=
  {| answer_courses := λ _, courses;
     answer_mode := λ _, lit <$> mode;
     answer_assignments := λ _, picked |}.

Definition asg (c n : string) (d u : option string) : Assignment :=
  {| course_name := lit c; name := lit n;
     due_at := lit <$> d; html_url := lit <$> u |}.

Definition math_block : list Assignment :=
  [ asg "Math" "HW1" (Some "2024-01-15 05:00 EST")
      (Some "https://canvas.test/a/1");
    asg "Math" "Untitled" (Some "next Tuesday") None;
    asg "Math" "HW1" (Some "2024-01-15 05:00 EST")
      (Some "https://canvas.test/a/1") ].

Definition essay_block : list Assignment :=
  [ asg "Course 102" "Essay" None None ].

Definition sample_courses : list dict := [math; ghost; nameless; bare; art].

(** An assignment due in the last hour of year 9999. *)
Definition last_hour : Assignment :=
  asg "Math" "Final" (Some "9999-12-31 23:00 EST") None.

Definition sample_upstream (course_id : Z) : list dict :=
  if course_id =? 101 then [hw1; untitled; hw1]
  else if course_id =? 102 then [essay]
  else [].

(** A server whose second page fails, one whose pages never end, and
    environments that lack a variable. *)
Definition flaky_server : Http := λ _ url params,
  if bool_decide (params = []) then failed "502 Bad Gateway"
  else ok [math] (Some (url ++ page2)).

Definition looping_server : Http := λ _ url _, ok [] (Some (url ++ page2)).

Definition no_environ : Environ := λ _, None.

Definition tokenless_environ : Environ := λ name,
  if bool_decide (name = lit "CANVAS_BASE_URL") then Some base
  else if bool_decide (name = lit "CANVAS_API_TOKEN") then Some []
  else None.

(** A server whose one course has an assignment due at the very start of
    year 1. *)
Definition ancient_server : Http := λ _ url _,
  if bool_decide (url = courses_url base) then ok [math] None
  else ok [record None (Some "Old") None (Some "0001-01-01T00:00:00Z") None]
         None.

(** An [ics] library for the sample dates.  Its set hands the events
    back last added first; serialising turns the dates to UTC, five
    hours on, which is out of range in the last five hours of year
    9999. *)
Definition too_late (event : @Event dates) : bool :=
  (year (event_begin event) =? 9999) && (month (event_begin event) =? 12)
  && (day (event_begin event) =? 31) && (19 <=? hour (event_begin event)).

Definition ics : @IcsLib dates :=
  {| event_set := list (@Event dates);
     no_events := [];
     add_event := cons;
     iterate := λ cal, cal;
     begin_error := λ _, None;
     write_error := λ cal,
       if existsb too_late cal then Some OverflowError else None;
     iterate_no_events := eq_refl;
     iterate_add_event := λ event cal, Permutation_refl (event :: cal);
     begin_error_not_http := ltac:(intros dt e Herr; discriminate Herr);
     write_error_not_http :=
       ltac:(intros cal e Herr; cbv beta in Herr;
             destruct (existsb too_late cal);
             [injection Herr as Heq; rewrite <- Heq; reflexivity
             | discriminate Herr]) |}.

(** A server whose one course has an assignment due in the last hour of
    year 9999, in a form that only the calendar parse reads. *)
Definition doomsday_server : Http := λ _ url _,
  if bool_decide (url = courses_url base) then ok [math] None
  else ok [record None (Some "Final") None (Some "9999-12-31 23:00 EST") None]
         None.

(** A date library that treats every string as a failed parse. *)
Definition strict_dates : DateLib :=
  {| datetime := civil; isoparse := λ _, Raised ValueError;
     astimezone := est_astimezone; strftime := est_strftime;
     parse := λ _, Raised ValueError |}.

End Sample.

(** * Properties *)

(** ** Helpers: truth values and the monads *)

Lemma truthy_list_false {A} (l : list A) : truthy l = false ↔ l = [].
Proof. destruct l; cbn; split; intros; congruence. Qed.

Lemma truthy_list_true {A} (l : list A) : truthy l = true ↔ l ≠ [].
Proof. destruct l; cbn; split; intros; congruence. Qed.

Lemma truthy_option_true {A} `{Truthy A} (o : option A) :
  truthy o = true ↔ ∃ x, o = Some x ∧ truthy x = true.
Proof.
  destruct o as [x|]; simpl; split.
  - intros Hx. exists x. split; [reflexivity | exact Hx].
  - intros (y & [= <-] & Hy). exact Hy.
  - intros [=].
  - intros (y & [=] & _).
Qed.

Lemma or_str_nonempty (x : option str) (y : str) : y ≠ [] → or_str x y ≠ [].
Proof.
  intros Hy. unfold or_str. destruct x as [[|c s]|]; simpl; congruence.
Qed.



(** ** The pager *)

Section Pager.
Context `{Http}.

Lemma paginate_source session url params ps :
  source session url params ps →
  ∀ fuel, (length ps ≤ fuel)%nat →
  paginate fuel session url params = yields ps.
Proof.
  induction 1 as [url params Hurl | url params rest Hurl Hok _ IH];
    intros fuel Hfuel.
  - destruct fuel; simpl; rewrite Hurl; reflexivity.
  - destruct fuel as [|fuel]; simpl in Hfuel; [lia|].
    simpl. rewrite Hurl. unfold raise_for_status. rewrite Hok.
    rewrite IH by lia. reflexivity.
Qed.

Lemma paginate_one_request session url params fuel :
  links_next (session_get session (default [] url) params) = None →
  paginate (S fuel) session url params
  = if truthy url then
      match raise_for_status (session_get session (default [] url) params) with
      | Raised e => Throw e
      | Ok _ => Yield (json (session_get session (default [] url) params)) Stop
      end
    else Stop.
Proof.
  intros Hnext. simpl. destruct (truthy url); [|reflexivity].
  destruct (raise_for_status _); [|reflexivity].
  rewrite Hnext. destruct fuel; reflexivity.
Qed.

Lemma extend_all_yields acc ps :
  extend_all acc (yields ps) = Return (acc ++ concat ps).
Proof.
  revert acc. induction ps as [|p ps IH]; intros acc; simpl.
  - rewrite app_nil_r. reflexivity.
  - rewrite IH, <- app_assoc. reflexivity.
Qed.

(** C2. A source of N pages whose last page has no [next] relation makes
    [paginate] yield exactly these N pages, in order, and stop, for every
    N (none when there is no URL to ask, one for N = 1) and with every
    bound of at least N requests: the run itself caps nothing.  Against a
    server that never sends a [next] relation a single request is made:
    one page is yielded, or the request's HTTP error raised. *)
Theorem paginate_yields_exactly_the_source :
  (∀ session url params ps fuel,
     source session url params ps →
     (length ps ≤ fuel)%nat →
     paginate fuel session url params = yields ps
     ∧ extend_all [] (paginate fuel session url params) = Return (concat ps))
  ∧ (∀ session url params fuel,
       (∀ hdrs u q, links_next (http_get hdrs u q) = None) →
       truthy url = true →
       paginate (S fuel) session url params
       = match http_error (session_get session (default [] url) params) with
         | Some msg => Throw (HTTPError msg)
         | None =>
             yields [json (session_get session (default [] url) params)]
         end).
Proof.
  split.
  - intros session url params ps fuel Hsrc Hfuel.
    rewrite (paginate_source _ _ _ _ Hsrc _ Hfuel).
    split; [reflexivity | apply extend_all_yields].
  - intros session url params fuel Hnever Hurl.
    rewrite paginate_one_request by apply Hnever.
    rewrite Hurl. unfold raise_for_status.
    destruct (http_error _); reflexivity.
Qed.

End Pager.

Import Sample.

(** There is a source of N pages for every N: the pages of
    [paged_server] from page [i] on are a source, and [paginate] yields
    them all. *)
Lemma paged_server_get ps session i params :
  @session_get (paged_server ps) session (page_url i) params
  = {| http_error := None;
       json := default [] (ps !! i);
       links_next :=
         if (S i <? length ps)%nat then Some (page_url (S i)) else None |}.
Proof.
  unfold session_get, http_get, paged_server, page_url.
  rewrite length_replicate. replace (S i - 1)%nat with i by lia.
  reflexivity.
Qed.

Lemma paged_server_source ps session n :
  ∀ i params, (length ps - i = n)%nat →
  @source (paged_server ps) session
    (if (i <? length ps)%nat then Some (page_url i) else None) params
    (drop i ps).
Proof.
  induction n as [|n IH]; intros i params Hn.
  - replace (i <? length ps)%nat with false
      by (symmetry; apply Nat.ltb_ge; lia).
    rewrite drop_ge by lia. apply source_end. reflexivity.
  - replace (i <? length ps)%nat with true
      by (symmetry; apply Nat.ltb_lt; lia).
    destruct (lookup_lt_is_Some_2 ps i) as [page Hpage]; [lia|].
    rewrite (drop_S _ _ _ Hpage).
    pose proof (paged_server_get ps session i params) as Hget.
    pose proof (@source_page (paged_server ps) session (Some (page_url i))
                  params (drop (S i) ps)) as Hstep.
    cbn [from_option id] in Hstep. rewrite Hget in Hstep.
    cbn [json links_next http_error] in Hstep. rewrite Hpage in Hstep.
    apply Hstep; [reflexivity | reflexivity |].
    apply IH. lia.
Qed.

Lemma paginate_paged_server ps session params :
  ps ≠ [] →
  @paginate (paged_server ps) (length ps) session (Some (page_url 0)) params
  = yields ps.
Proof.
  intros Hps.
  pose proof (paged_server_source ps session (length ps) 0%nat params) as Hsrc.
  replace (0 <? length ps)%nat with true in Hsrc
    by (symmetry; apply Nat.ltb_lt; destruct ps; [congruence | cbn; lia]).
  change (drop 0 ps) with ps in Hsrc.
  apply (@paginate_source (paged_server ps) _ _ _ _ (Hsrc ltac:(lia))).
  reflexivity.
Qed.

Lemma sample_courses_source :
  @source server authorised (Some (courses_url base)) courses_params
    [[math; ghost; nameless]; [bare; art]].
Proof.
  apply (@source_page server authorised (Some (courses_url base))
           courses_params [[bare; art]]); [reflexivity | reflexivity |].
  apply (@source_page server authorised
           (Some (courses_url base ++ page2)) [] []);
    [reflexivity | reflexivity |].
  apply source_end. reflexivity.
Qed.

Lemma paginate_yields_exactly_the_source_witness :
  @paginate server 2 authorised (Some (courses_url base)) courses_params
  = Yield [math; ghost; nameless] (Yield [bare; art] Stop)
  ∧ @paginate empty_server 7 authorised (Some (courses_url base)) courses_params
    = Yield [] Stop.
Proof.
  split.
  - apply (proj1 (@paginate_yields_exactly_the_source server)
             authorised (Some (courses_url base)) courses_params
             [[math; ghost; nameless]; [bare; art]] 2%nat).
    + exact sample_courses_source.
    + simpl. lia.
  - apply (proj2 (@paginate_yields_exactly_the_source empty_server)
             authorised (Some (courses_url base)) courses_params 6%nat).
    + intros hdrs u q. reflexivity.
    + reflexivity.
Defined.

(** ** The date normaliser *)

Section Dates.
Context `{DateLib}.

Lemma parse_due_at_falsy due_at :
  truthy due_at = false → parse_due_at due_at = Ok None.
Proof. intros Hd. unfold parse_due_at. rewrite Hd. reflexivity. Qed.

Lemma parse_due_at_render (s : str) :
  s ≠ [] →
  parse_due_at (Some s)
  = match render s with
    | Ok text => Ok (Some text)
    | Raised e =>
        if is_ValueError_or_TypeError e then Ok (Some s) else Raised e
    end.
Proof.
  intros Hs. unfold parse_due_at.
  replace (truthy (Some s)) with true
    by (symmetry; apply truthy_option_true; exists s; split;
        [reflexivity | apply truthy_list_true, Hs]).
  reflexivity.
Qed.

(** When [parse_due_at] returns, it returns a normalised value; it raises
    exactly the exceptions of the library that its handler does not
    name. *)
Lemma parse_due_at_cases due_at :
  match parse_due_at due_at with
  | Ok d => normalised d
  | Raised e =>
      is_ValueError_or_TypeError e = false
      ∧ ∃ s, due_at = Some s ∧ s ≠ [] ∧ render s = Raised e
  end.
Proof.
  destruct (truthy due_at) eqn:Hd.
  - apply truthy_option_true in Hd as (s & -> & Hs).
    apply truthy_list_true in Hs.
    rewrite parse_due_at_render by exact Hs.
    destruct (render s) as [text|e] eqn:Hr.
    + eapply normalised_display, Hr.
    + destruct (is_ValueError_or_TypeError e) eqn:He.
      * eapply normalised_raw; eassumption.
      * split; [exact He|]. exists s. auto.
  - rewrite parse_due_at_falsy by exact Hd. constructor.
Qed.

(** C3. [parse_due_at] lets an exception pass: when the string parses and
    [astimezone] raises a class other than [ValueError] and [TypeError]
    (as it does with [OverflowError] for a date that the local offset
    moves before year 1 or after year 9999), the call raises it. *)
Theorem parse_due_at_raises (s : str) (dt : datetime) (e : exn) :
  s ≠ [] →
  isoparse s = Ok dt →
  astimezone dt = Raised e →
  is_ValueError_or_TypeError e = false →
  parse_due_at (Some s) = Raised e.
Proof.
  intros Hs Hiso Hlocal He.
  rewrite parse_due_at_render by exact Hs.
  unfold render. rewrite Hiso. cbn. rewrite Hlocal. cbn.
  rewrite He. reflexivity.
Qed.

End Dates.

Lemma parse_due_at_raises_witness :
  @parse_due_at dates (Some (lit "0001-01-01T00:00:00Z")) = Raised OverflowError.
Proof.
  apply (@parse_due_at_raises dates (lit "0001-01-01T00:00:00Z")
           {| year := 1; month := 1; day := 1; hour := 0; minute := 0;
              tzname := lit "UTC" |} OverflowError).
  - discriminate.
  - vm_compute. reflexivity.
  - vm_compute. reflexivity.
  - reflexivity.
Defined.

(** ** The collector *)

Section Collector.
Context `{Http} `{DateLib}.

Lemma append_items_mapM course_name items results :
  append_items course_name items results
  = (new ← mapM (make_assignment course_name) items; mret (results ++ new)).
Proof.
  revert results. induction items as [|item items IH]; intros results; cbn.
  - rewrite app_nil_r. reflexivity.
  - destruct (make_assignment course_name item) as [a|e]; cbn; [|reflexivity].
    rewrite IH. destruct (mapM _ items) as [new|e]; cbn; [|reflexivity].
    rewrite <- app_assoc. reflexivity.
Qed.

Lemma spec_collect_cons course_map upstream course_id ids :
  spec_collect course_map upstream (course_id :: ids)
  = (block ← spec_block course_map upstream course_id;
     rest ← spec_collect course_map upstream ids;
     mret (block ++ rest)).
Proof.
  unfold spec_collect. cbn [mapM].
  destruct (spec_block course_map upstream course_id) as [block|e];
    [|reflexivity].
  cbn. destruct (mapM _ ids) as [blocks|e]; reflexivity.
Qed.

Lemma collect_loop_spec fuel session base_url course_map upstream ids :
  (∀ course_id course,
     course_id ∈ ids → course_map !! course_id = Some course →
     fetch_assignments fuel session base_url course_id
     = Return (upstream course_id)) →
  ∀ results,
  collect_loop fuel session base_url course_map ids results
  = lift (new ← spec_collect course_map upstream ids; mret (results ++ new)).
Proof.
  induction ids as [|course_id ids IH]; intros Hfetch results.
  - cbn. rewrite app_nil_r. reflexivity.
  - assert (Hrest : ∀ i c, i ∈ ids → course_map !! i = Some c →
              fetch_assignments fuel session base_url i = Return (upstream i)).
    { intros i c Hi. apply Hfetch. right. exact Hi. }
    rewrite spec_collect_cons. cbn [collect_loop]. unfold spec_block.
    destruct (course_map !! course_id) as [course|] eqn:Hc.
    + rewrite (Hfetch course_id course) by (constructor || exact Hc).
      cbn [mbind outcome_bind]. rewrite append_items_mapM.
      destruct (mapM _ (upstream course_id)) as [block|e]; [|reflexivity].
      cbn [mbind result_bind mret result_ret lift outcome_bind].
      rewrite (IH Hrest).
      destruct (spec_collect course_map upstream ids) as [rest|e];
        [|reflexivity].
      cbn. rewrite app_assoc. reflexivity.
    + rewrite (IH Hrest).
      destruct (spec_collect course_map upstream ids) as [rest|e];
        reflexivity.
Qed.




Lemma collect_loop_app fuel session base_url course_map ids1 ids2 results :
  collect_loop fuel session base_url course_map (ids1 ++ ids2) results
  = (results' ← collect_loop fuel session base_url course_map ids1 results;
     collect_loop fuel session base_url course_map ids2 results').
Proof.
  revert results. induction ids1 as [|course_id ids1 IH]; intros results; cbn.
  - reflexivity.
  - destruct (course_map !! course_id) as [course|]; [|apply IH].
    destruct (fetch_assignments fuel session base_url course_id)
      as [items|e|code|]; cbn; try reflexivity.
    destruct (append_items _ items results) as [results'|e]; cbn;
      [apply IH | reflexivity].
Qed.

(** The lookup holds a record under the id the record itself carries, and
    that id is truthy. *)
Lemma course_map_of_lookup courses course_id course :
  course_map_of courses !! course_id = Some course →
  course ∈ courses ∧ get_id course = Some course_id ∧ course_id ≠ 0.
Proof.
  unfold course_map_of.
  assert (Hgen : ∀ (m : gmap Z dict),
            (∀ k c, m !! k = Some c →
                    c ∈ courses ∧ get_id c = Some k ∧ k ≠ 0) →
            ∀ l, (∀ c, c ∈ l → c ∈ courses) →
            ∀ k c,
            foldl (λ (m : gmap Z dict) c,
                     if truthy (get_id c)
                     then match get_id c with
                          | Some k => <[k:=c]> m
                          | None => m
                          end
                     else m) m l !! k = Some c →
            c ∈ courses ∧ get_id c = Some k ∧ k ≠ 0).
  { intros m Hm l. revert m Hm.
    induction l as [|c0 l IH]; intros m Hm Hl k c; cbn; [apply Hm|].
    apply IH; [|intros c' Hc'; apply Hl; right; exact Hc'].
    intros k' c'.
    destruct (get_id c0) as [i|] eqn:Hid; [|apply Hm].
    change (truthy (Some i)) with (negb (i =? 0)).
    destruct (Z.eqb_spec i 0) as [->|Hi]; [apply Hm|].
    cbn [negb]. rewrite lookup_insert. case_decide as Hk; [|apply Hm].
    intros [= <-]. subst k'.
    split; [apply Hl; left | split; [exact Hid | exact Hi]]. }
  apply Hgen; [|auto].
  intros k c. rewrite lookup_empty. discriminate.
Qed.


Lemma course_name_of_nonempty course course_id :
  course_name_of course course_id ≠ [].
Proof. apply or_str_nonempty. discriminate. Qed.

Lemma make_assignment_inv cn item a :
  make_assignment cn item = Ok a →
  parse_due_at (get_due_at item) = Ok (due_at a)
  ∧ course_name a = cn
  ∧ name a = or_str (get_name item) (lit "Untitled")
  ∧ html_url a = get_html_url item.
Proof.
  unfold make_assignment.
  destruct (parse_due_at (get_due_at item)) as [due|e]; cbn; [|discriminate].
  intros [= <-]. cbn. auto.
Qed.

Lemma parse_due_at_from upstream due :
  parse_due_at upstream = Ok due → normalised_from upstream due.
Proof.
  destruct (truthy upstream) eqn:Hup.
  - apply truthy_option_true in Hup as (s & -> & Hs).
    apply truthy_list_true in Hs.
    rewrite parse_due_at_render by exact Hs.
    destruct (render s) as [text|e] eqn:Hr.
    + intros [= <-]. eapply from_display; eauto.
    + destruct (is_ValueError_or_TypeError e) eqn:He; [|discriminate].
      intros [= <-]. eapply from_raw; eauto.
  - rewrite parse_due_at_falsy by exact Hup. intros [= <-].
    apply from_absent, Hup.
Qed.

(** What holds of every record built from an upstream record of a
    selected course holds of all that the loop returns. *)
Lemma append_items_Forall_in (P : Assignment → Prop) cn items :
  ∀ results out,
  append_items cn items results = Ok out →
  Forall P results →
  (∀ item a, item ∈ items → make_assignment cn item = Ok a → P a) →
  Forall P out.
Proof.
  induction items as [|item items IH]; intros results out; cbn.
  - intros [= <-]. auto.
  - destruct (make_assignment cn item) as [a|e] eqn:Ha; cbn; [|discriminate].
    intros Hout Hres Hmk. apply (IH _ _ Hout).
    + apply Forall_app. split; [exact Hres|].
      constructor; [apply (Hmk item a); [left | exact Ha] | constructor].
    + intros item' a' Hin. apply Hmk. right. exact Hin.
Qed.

Lemma collect_loop_Forall_in (P : Assignment → Prop) fuel session base_url
    course_map :
  ∀ ids results out,
  collect_loop fuel session base_url course_map ids results = Return out →
  Forall P results →
  (∀ course_id course items item a,
     course_id ∈ ids →
     course_map !! course_id = Some course →
     fetch_assignments fuel session base_url course_id = Return items →
     item ∈ items →
     make_assignment (course_name_of course course_id) item = Ok a → P a) →
  Forall P out.
Proof.
  induction ids as [|course_id ids IH]; intros results out; cbn.
  - intros [= <-]. auto.
  - destruct (course_map !! course_id) as [course|] eqn:Hc.
    + destruct (fetch_assignments fuel session base_url course_id)
        as [items|e|code|] eqn:Hfetch; cbn; try discriminate.
      destruct (append_items _ items results) as [results'|e] eqn:Happ; cbn;
        [|discriminate].
      intros Hout Hres Hmk. apply (IH _ _ Hout).
      * eapply append_items_Forall_in; [exact Happ | exact Hres |].
        intros item a Hitem. apply (Hmk course_id course items item a);
          [left | exact Hc | exact Hfetch | exact Hitem].
      * intros id c its it a Hid. apply Hmk. right. exact Hid.
    + intros Hout Hres Hmk. apply (IH _ _ Hout Hres).
      intros id c its it a Hid. apply Hmk. right. exact Hid.
Qed.

(** C1, as amended.  Every record that [collect_assignments] returns has
    a non-empty [course_name] and a non-empty [name], and is built from
    an upstream record of a selected course, whose [name] (or
    "Untitled") and [html_url] it carries; its [due_at] is absent when
    that record has none, the display text the date library rendered
    from the record's [due_at], or that very string where the library
    raised [ValueError] or [TypeError] on it. *)
Theorem collected_records_are_well_formed fuel session base_url ids results :
  collect_assignments fuel session base_url ids = Return results →
  ∀ a, a ∈ results →
  course_name a ≠ [] ∧ name a ≠ []
  ∧ ∃ course_id items item,
      course_id ∈ ids
      ∧ fetch_assignments fuel session base_url course_id = Return items
      ∧ item ∈ items
      ∧ name a = or_str (get_name item) (lit "Untitled")
      ∧ html_url a = get_html_url item
      ∧ normalised_from (get_due_at item) (due_at a).
Proof.
  intros Hrun. apply Forall_forall. unfold collect_assignments in Hrun.
  destruct (fetch_courses fuel session base_url) as [courses|e|code|];
    cbn in Hrun; try discriminate.
  eapply collect_loop_Forall_in; [exact Hrun | constructor |].
  intros course_id course items item a Hid _ Hfetch Hitem Ha.
  apply make_assignment_inv in Ha as (Hdue & Hcn & Hn & Hurl).
  split; [rewrite Hcn; apply course_name_of_nonempty|].
  split; [rewrite Hn; apply or_str_nonempty; discriminate|].
  exists course_id, items, item.
  repeat (split; [assumption|]). apply parse_due_at_from, Hdue.
Qed.

(** C4. With the courses fetched and the assignments of every selected
    course that the lookup holds fetched, [collect_assignments] returns
    the blocks of the selected ids in the caller's order, an id that the
    lookup does not hold contributing nothing, each block in upstream
    order, record for record: nothing is merged or dropped. *)
Theorem collect_assignments_in_selection_order fuel session base_url ids
    courses upstream :
  fetch_courses fuel session base_url = Return courses →
  (∀ course_id course,
     course_id ∈ ids → course_map_of courses !! course_id = Some course →
     fetch_assignments fuel session base_url course_id
     = Return (upstream course_id)) →
  collect_assignments fuel session base_url ids
  = lift (spec_collect (course_map_of courses) upstream ids).
Proof.
  intros Hcourses Hfetch. unfold collect_assignments.
  rewrite Hcourses. cbn [mbind outcome_bind].
  rewrite (collect_loop_spec _ _ _ _ upstream ids Hfetch).
  destruct (spec_collect _ upstream ids); reflexivity.
Qed.


(** C10. The lookup holds no course record whose [id] is missing or
    falsy: what it holds has a truthy [id], so a fetched record without
    one is under no key, and 0 is no key.  A selected id of 0 is passed
    over: the result is that of the selection without it, whatever the
    server lists. *)
Theorem falsy_course_ids_are_skipped :
  (∀ courses course_id course,
     course_map_of courses !! course_id = Some course →
     truthy (get_id course) = true)
  ∧ (∀ courses course course_id,
       course ∈ courses → truthy (get_id course) = false →
       course_map_of courses !! course_id ≠ Some course)
  ∧ (∀ courses, course_map_of courses !! 0 = None)
  ∧ (∀ fuel session base_url before after,
       collect_assignments fuel session base_url (before ++ 0 :: after)
       = collect_assignments fuel session base_url (before ++ after)).
Proof.
  assert (Htruthy : ∀ courses course_id course,
            course_map_of courses !! course_id = Some course →
            truthy (get_id course) = true).
  { intros courses course_id course Hc.
    apply course_map_of_lookup in Hc as (_ & -> & Hne).
    cbn. apply negb_true_iff, Z.eqb_neq, Hne. }
  assert (Hzero : ∀ courses, course_map_of courses !! 0 = None).
  { intros courses.
    destruct (course_map_of courses !! 0) as [course|] eqn:Hc; [|reflexivity].
    apply course_map_of_lookup in Hc as (_ & _ & Hne). congruence. }
  repeat split.
  - exact Htruthy.
  - intros courses course course_id _ Hfalsy Hc.
    apply Htruthy in Hc. congruence.
  - exact Hzero.
  - intros fuel session base_url before after. unfold collect_assignments.
    destruct (fetch_courses fuel session base_url) as [courses|e|code|];
      try reflexivity.
    cbn [mbind outcome_bind]. rewrite !collect_loop_app.
    destruct (collect_loop _ _ _ _ before []) as [results|e|code|];
      try reflexivity.
    cbn [mbind outcome_bind collect_loop]. rewrite Hzero. reflexivity.
Qed.

End Collector.

(** *** The collector on the sample world *)

Lemma sample_fetch_courses :
  @fetch_courses server 5 authorised base = Return sample_courses.
Proof. vm_compute. reflexivity. Qed.

Lemma sample_collect_math :
  @collect_assignments server dates 5 authorised base [101] = Return math_block.
Proof. vm_compute. reflexivity. Qed.

(** The sample library writes a hyphen into whatever it renders. *)
Lemma sample_render_has_hyphen raw text :
  @render dates raw = Ok text → hyphen ∈ text.
Proof.
  unfold render. cbn [isoparse astimezone strftime dates].
  destruct (utc_isoparse raw) as [dt|e]; [|discriminate].
  cbn [mbind result_bind].
  destruct (est_astimezone dt) as [local|e]; [|discriminate].
  cbn [mbind result_bind]. unfold est_strftime. intros [= <-].
  apply elem_of_app. right. left.
Qed.

(** C1, as stated, fails: an upstream [due_at] that does not parse is kept
    as it is, and it is neither absent nor display text. *)
Lemma collected_due_at_is_not_display_text :
  ∃ results a,
    @collect_assignments server dates 5 authorised base [101] = Return results
    ∧ a ∈ results
    ∧ due_at a = Some (lit "next Tuesday")
    ∧ ¬ (∃ raw, @render dates raw = Ok (lit "next Tuesday")).
Proof.
  exists math_block, (asg "Math" "Untitled" (Some "next Tuesday") None).
  split; [exact sample_collect_math|].
  split; [right; left|].
  split; [reflexivity|].
  intros [raw Hraw]. apply sample_render_has_hyphen in Hraw.
  apply list_elem_of_In in Hraw. vm_compute in Hraw.
  repeat (destruct Hraw as [Hraw|Hraw]; [discriminate Hraw|]).
  exact Hraw.
Qed.

Lemma collected_records_are_well_formed_witness :
  let a := asg "Math" "Untitled" (Some "next Tuesday") None in
  course_name a ≠ [] ∧ name a ≠ []
  ∧ ∃ course_id items item,
      course_id ∈ [101]
      ∧ @fetch_assignments server 5 authorised base course_id = Return items
      ∧ item ∈ items
      ∧ name a = or_str (get_name item) (lit "Untitled")
      ∧ html_url a = get_html_url item
      ∧ @normalised_from dates (get_due_at item) (due_at a).
Proof.
  apply (@collected_records_are_well_formed server dates 5%nat authorised base
           [101] math_block).
  - exact sample_collect_math.
  - right. left.
Defined.

Lemma collect_assignments_in_selection_order_witness :
  @collect_assignments server dates 5 authorised base [102; 999; 0; 101; 102]
  = Return (essay_block ++ math_block ++ essay_block).
Proof.
  etransitivity.
  - apply (@collect_assignments_in_selection_order server dates 5%nat
             authorised base [102; 999; 0; 101; 102] sample_courses
             sample_upstream).
    + exact sample_fetch_courses.
    + intros course_id course Hin Hc.
      rewrite !elem_of_cons, elem_of_nil in Hin.
      destruct Hin as [->|[->|[->|[->|[->|[]]]]]];
        try (vm_compute in Hc; discriminate Hc);
        vm_compute; reflexivity.
  - vm_compute. reflexivity.
Defined.


Lemma falsy_course_ids_are_skipped_witness :
  truthy (get_id math) = true
  ∧ course_map_of sample_courses !! 0 ≠ Some ghost
  ∧ @collect_assignments server dates 5 authorised base ([102] ++ 0 :: [101])
    = @collect_assignments server dates 5 authorised base ([102] ++ [101]).
Proof.
  pose proof (@falsy_course_ids_are_skipped server dates) as (H1 & H2 & _ & H4).
  split; [|split].
  - apply (H1 sample_courses 101 math). vm_compute. reflexivity.
  - apply (H2 sample_courses ghost 0); [right; left | reflexivity].
  - apply H4.
Defined.

(** ** The formatter *)

Lemma format_lines_acc assignments current lines :
  format_lines assignments current lines
  = lines ++ format_lines assignments current [].
Proof.
  revert current lines.
  induction assignments as [|a rest IH]; intros current lines; cbn.
  - rewrite app_nil_r. reflexivity.
  - rewrite IH. symmetry. rewrite IH.
    destruct (negb (bool_decide (Some (course_name a) = current)));
      cbn; rewrite <- ?app_assoc; reflexivity.
Qed.

Lemma format_output_empty : format_output [] = lit "No assignments found.".
Proof. reflexivity. Qed.

(** X10. Where the first course name starts with a character that is not
    white space, [lstrip] removes the leading blank line and nothing
    else: the output is the lines after it, joined by newlines. *)
Lemma format_output_first_header_kept a rest c cn :
  course_name a = c :: cn → is_space c = false →
  format_lines (a :: rest) None []
  = [] :: tail (format_lines (a :: rest) None [])
  ∧ format_output (a :: rest)
    = join [newline] (tail (format_lines (a :: rest) None [])).
Proof.
  intros Hcn Hc. unfold format_output. cbn [truthy truthy_list negb].
  cbn [format_lines]. rewrite Hcn.
  replace (bool_decide (Some (c :: cn) = None)) with false
    by (symmetry; apply bool_decide_eq_false; discriminate).
  cbn [negb app]. rewrite format_lines_acc. cbn [app tail].
  split; [reflexivity|].
  cbn [join app lstrip]. rewrite Hc.
  change (is_space newline) with true. cbn iota. reflexivity.
Qed.

(** The grouping example of the specification: two headers, each over
    its own bullets, in input order. *)
Example format_output_groups :
  format_output [ asg "Math" "HW1" None None; asg "Math" "HW2" None None;
                  asg "Art" "Proj1" None None ]
  = join [newline]
      [ lit "Math"; lit "----";
        [bullet; space] ++ lit "HW1" ++ [space; em_dash; space]
        ++ lit "No due date";
        [bullet; space] ++ lit "HW2" ++ [space; em_dash; space]
        ++ lit "No due date";
        [];
        lit "Art"; lit "---";
        [bullet; space] ++ lit "Proj1" ++ [space; em_dash; space]
        ++ lit "No due date" ].
Proof. vm_compute. reflexivity. Qed.

(** Grouping is by adjacency: a course that comes back gets a header
    again. *)
Example format_output_interleaved :
  format_lines [ asg "Math" "HW1" None None; asg "Art" "Proj1" None None;
                 asg "Math" "HW2" None None ] None []
  = [ []; lit "Math"; lit "----";
      [bullet; space] ++ lit "HW1" ++ [space; em_dash; space]
      ++ lit "No due date";
      []; lit "Art"; lit "---";
      [bullet; space] ++ lit "Proj1" ++ [space; em_dash; space]
      ++ lit "No due date";
      []; lit "Math"; lit "----";
      [bullet; space] ++ lit "HW2" ++ [space; em_dash; space]
      ++ lit "No due date" ].
Proof. vm_compute. reflexivity. Qed.

(** C6. [format_output] does not always put a group under a header line
    with an underline of the same length: [lstrip] removes more than the
    leading blank line when the first course name starts with white
    space.  For the one assignment "HW1" of the course " Math" the header
    printed is "Math", four characters, over an underline of five. *)
Theorem format_output_strips_the_first_header :
  format_output [ asg " Math" "HW1" None None ]
  = join [newline]
      [ lit "Math"; replicate 5 hyphen;
        [bullet; space] ++ lit "HW1" ++ [space; em_dash; space]
        ++ lit "No due date" ]
  ∧ format_output [ asg " " "HW1" None None ]
    = join [newline]
        [ replicate 1 hyphen;
          [bullet; space] ++ lit "HW1" ++ [space; em_dash; space]
          ++ lit "No due date" ].
Proof. split; vm_compute; reflexivity. Qed.

(** ** The calendar exporter *)

Section Exporter.
Context `{DateLib} `{IcsLib}.

Lemma exported_exists assignments :
  ∃ events, Forall2 exported assignments events.
Proof.
  induction assignments as [|a rest [events Hall]].
  - exists []. constructor.
  - destruct (truthy (due_at a)) eqn:Hdue.
    + apply truthy_option_true in Hdue as (s & Hs & Hne).
      apply truthy_list_true in Hne.
      destruct (parse s) as [dt|e] eqn:Hparse.
      * eexists (Some _ :: events).
        constructor; [eapply emitted; eassumption | exact Hall].
      * exists (None :: events).
        constructor; [eapply skipped_unparseable; eassumption | exact Hall].
    + exists (None :: events).
      constructor; [apply skipped_absent, Hdue | exact Hall].
Qed.

Lemma add_events_exported assignments events :
  Forall2 exported assignments events →
  (∀ event, Some event ∈ events → begin_error (event_begin event) = None) →
  ∀ cal,
  ∃ cal',
    add_events assignments cal = Ok cal'
    ∧ iterate cal' ≡ₚ omap id events ++ iterate cal.
Proof.
  induction 1 as [|a event rest events Hone _ IH]; intros Hbegin cal.
  - exists cal. split; reflexivity.
  - assert (Hrest : ∀ ev, Some ev ∈ events →
                          begin_error (event_begin ev) = None).
    { intros ev Hev. apply Hbegin. right. exact Hev. }
    destruct Hone as [Habsent | s e Hs Hne Hparse | s dt Hs Hne Hparse].
    + cbn [add_events]. rewrite Habsent. cbn [negb]. apply (IH Hrest).
    + cbn [add_events].
      replace (truthy (due_at a)) with true
        by (rewrite Hs; symmetry; apply truthy_list_true, Hne).
      rewrite Hs. cbn [negb from_option id]. rewrite Hparse.
      apply (IH Hrest).
    + cbn [add_events].
      replace (truthy (due_at a)) with true
        by (rewrite Hs; symmetry; apply truthy_list_true, Hne).
      rewrite Hs. cbn [negb from_option id]. rewrite Hparse.
      pose proof (Hbegin _ ltac:(left)) as Hfirst.
      cbn [event_begin] in Hfirst. rewrite Hfirst.
      destruct (IH Hrest (add_event
                            {| event_name := name a;
                               event_begin := dt;
                               event_url := or_str (html_url a) [];
                               event_description :=
                                 lit "Course: " ++ course_name a |} cal))
        as (cal' & Hadd & Hperm).
      exists cal'. split; [exact Hadd|].
      rewrite Hperm, iterate_add_event. cbn [omap list_omap id].
      symmetry. apply Permutation_middle.
Qed.

Lemma add_events_raises assignments cal e :
  add_events assignments cal = Raised e → is_HTTPError e = false.
Proof.
  revert cal. induction assignments as [|a rest IH]; intros cal;
    cbn [add_events]; [discriminate|].
  destruct (negb (truthy (due_at a))); [apply IH|].
  destruct (parse _) as [dt|_]; [|apply IH].
  destruct (begin_error dt) as [e'|] eqn:Hbegin; [|apply IH].
  intros [= <-]. eapply begin_error_not_http, Hbegin.
Qed.

Lemma create_ics_raises_not_http assignments filename out e :
  create_ics assignments filename = (out, Raised e) → is_HTTPError e = false.
Proof.
  unfold create_ics.
  destruct (add_events assignments no_events) as [cal|e'] eqn:Hadd.
  - destruct (write_error cal) as [e'|] eqn:Hwrite; [|discriminate].
    intros [= _ <-]. eapply write_error_not_http, Hwrite.
  - intros [= _ <-]. eapply add_events_raises, Hadd.
Qed.

(** X20. When the [ics] library raises nothing, neither on the start of
    an event nor on serialising a calendar of these events, [create_ics]
    opens the file, writes into it one event for each assignment whose
    [due_at] is present and parses (the name as title, the parsed date
    as start, [html_url] or the empty string as URL, "Course:
    {course_name}" as description) and nothing for any other assignment,
    in an order of the library's choosing, and reports the file. *)
Theorem create_ics_writes assignments events filename :
  Forall2 exported assignments events →
  (∀ event, Some event ∈ events → begin_error (event_begin event) = None) →
  (∀ cal, iterate cal ≡ₚ omap id events → write_error cal = None) →
  ∃ written,
    create_ics assignments filename
    = ([ OpenFile filename;
         WriteFile filename written;
         Print ([newline] ++ lit "Created calendar file: " ++ filename) ],
       Ok tt)
    ∧ written ≡ₚ omap id events.
Proof.
  intros Hall Hbegin Hwrite.
  destruct (add_events_exported _ _ Hall Hbegin no_events)
    as (cal & Hadd & Hperm).
  rewrite iterate_no_events, app_nil_r in Hperm.
  exists (iterate cal). split; [|exact Hperm].
  unfold create_ics. rewrite Hadd, (Hwrite cal Hperm). reflexivity.
Qed.

(** C5. [create_ics] does not always succeed: an assignment whose
    [due_at] parses passes the [try], and when serialising its event
    raises under [f.writelines(cal)], which no handler covers, the call
    raises that exception; the file has been opened, nothing is written
    into it, and nothing is reported. *)
Theorem create_ics_raises_on_write a s dt e filename :
  due_at a = Some s → s ≠ [] → parse s = Ok dt →
  begin_error dt = None →
  write_error
    (add_event {| event_name := name a;
                  event_begin := dt;
                  event_url := or_str (html_url a) [];
                  event_description := lit "Course: " ++ course_name a |}
       no_events) = Some e →
  create_ics [a] filename = ([OpenFile filename], Raised e).
Proof.
  intros Hs Hne Hparse Hbegin Hwrite. unfold create_ics. cbn [add_events].
  replace (truthy (due_at a)) with true
    by (rewrite Hs; symmetry; apply truthy_list_true, Hne).
  rewrite Hs. cbn [negb from_option id]. rewrite Hparse, Hbegin, Hwrite.
  reflexivity.
Qed.

End Exporter.

Lemma create_ics_raises_on_write_witness :
  @create_ics dates ics [last_hour] default_filename
  = ([OpenFile default_filename], Raised OverflowError).
Proof.
  apply (@create_ics_raises_on_write dates ics last_hour
           (lit "9999-12-31 23:00 EST")
           {| year := 9999; month := 12; day := 31; hour := 23; minute := 0;
              tzname := lit "EST" |} OverflowError default_filename).
  - reflexivity.
  - discriminate.
  - vm_compute. reflexivity.
  - reflexivity.
  - reflexivity.
Defined.

Lemma sample_exported :
  @Forall2 _ _ (@exported dates) (math_block ++ essay_block)
    [ Some (@Build_Event dates (lit "HW1")
              {| year := 2024; month := 1; day := 15; hour := 5; minute := 0;
                 tzname := lit "EST" |}
              (lit "https://canvas.test/a/1") (lit "Course: Math"));
      None;
      Some (@Build_Event dates (lit "HW1")
              {| year := 2024; month := 1; day := 15; hour := 5; minute := 0;
                 tzname := lit "EST" |}
              (lit "https://canvas.test/a/1") (lit "Course: Math"));
      None ].
Proof.
  assert (Hhw1 : @exported dates
            (asg "Math" "HW1" (Some "2024-01-15 05:00 EST")
               (Some "https://canvas.test/a/1"))
            (Some (@Build_Event dates (lit "HW1")
                     {| year := 2024; month := 1; day := 15; hour := 5;
                        minute := 0; tzname := lit "EST" |}
                     (lit "https://canvas.test/a/1") (lit "Course: Math")))).
  { apply (@emitted dates
             (asg "Math" "HW1" (Some "2024-01-15 05:00 EST")
                (Some "https://canvas.test/a/1"))
             (lit "2024-01-15 05:00 EST")
             {| year := 2024; month := 1; day := 15; hour := 5;
                minute := 0; tzname := lit "EST" |});
      [reflexivity | discriminate | vm_compute; reflexivity]. }
  unfold math_block, essay_block. cbn [app].
  constructor; [exact Hhw1|].
  constructor;
    [apply (@skipped_unparseable dates _ (lit "next Tuesday") ValueError);
     [reflexivity | discriminate | vm_compute; reflexivity]|].
  constructor; [exact Hhw1|].
  constructor; [apply skipped_absent; reflexivity | constructor].
Qed.

Lemma create_ics_writes_witness :
  ∃ written,
    @create_ics dates ics (math_block ++ essay_block) default_filename
    = ([ OpenFile default_filename;
         WriteFile default_filename written;
         Print ([newline] ++ lit "Created calendar file: "
                ++ default_filename) ],
       Ok tt)
    ∧ written
      ≡ₚ replicate 2
           (@Build_Event dates (lit "HW1")
              {| year := 2024; month := 1; day := 15; hour := 5; minute := 0;
                 tzname := lit "EST" |}
              (lit "https://canvas.test/a/1") (lit "Course: Math")).
Proof.
  apply (@create_ics_writes dates ics (math_block ++ essay_block) _
           default_filename sample_exported).
  - intros event Hevent. reflexivity.
  - intros cal Hcal. cbn [write_error ics].
    replace (existsb too_late cal) with false; [reflexivity|].
    symmetry. apply not_true_is_false. intros Hlate.
    apply existsb_exists in Hlate as (event & Hin & Hlate).
    apply list_elem_of_In in Hin. rewrite Hcal in Hin.
    cbn in Hin. rewrite !elem_of_cons, elem_of_nil in Hin.
    destruct Hin as [->|[->|[]]]; discriminate Hlate.
Defined.

Example create_ics_all_skipped :
  @create_ics dates ics essay_block default_filename
  = ([ OpenFile (lit "assignments.ics");
       WriteFile (lit "assignments.ics") [];
       Print ([newline] ++ lit "Created calendar file: assignments.ics") ],
     Ok tt).
Proof. vm_compute. reflexivity. Qed.

(** ** The top level *)

Section Main.
Context `{Http} `{DateLib} `{IcsLib} `{Environ} `{User}.

Lemma get_env_set name value :
  getenv name = Some value → value ≠ [] → get_env name = ([], Return value).
Proof.
  intros Hget Hne. unfold get_env. rewrite Hget.
  replace (truthy (Some value)) with true
    by (symmetry; apply truthy_list_true, Hne).
  reflexivity.
Qed.

Lemma main_configured fuel value token :
  configured value token →
  main fuel
  = match main_try fuel (session_of token) (rstrip_slash value) with
    | (out, Raise e) =>
        if is_HTTPError e
        then (out, Raise (Exception (lit "API request failed: {err}")))
        else (out, Raise e)
    | (out, Exit code) => (out, Exit code)
    | (out, OutOfFuel) => (out, OutOfFuel)
    | (out, Return (inl status)) => (out, Return status)
    | (out, Return (inr assignments)) =>
        let '(out', r) := main_export assignments in (out ++ out', r)
    end.
Proof.
  intros (Hbase & Hbase_ne & Htoken & Htoken_ne).
  unfold main, make_session.
  rewrite (get_env_set _ _ Hbase Hbase_ne), (get_env_set _ _ Htoken Htoken_ne).
  cbn [mbind outcome_bind mret outcome_ret app].
  fold (session_of token).
  destruct (main_try fuel (session_of token) (rstrip_slash value))
    as [out [[status|assignments]|e|code|]]; reflexivity.
Qed.

(** C8. When the body of the [try] statement raises an [HTTPError], with
    whatever message, [main] raises an [Exception] whose message is the
    text "API request failed: {err}" as it stands: the placeholder is in
    it and the message of the HTTP error is not. *)
Theorem http_failure_message_is_the_placeholder fuel value token out msg :
  configured value token →
  main_try fuel (session_of token) (rstrip_slash value)
  = (out, Raise (HTTPError msg)) →
  main fuel
  = (out, Raise (Exception (lit "API request failed: " ++ lit "{err}"))).
Proof.
  intros Hconf Htry. rewrite (main_configured _ _ _ Hconf), Htry.
  reflexivity.
Qed.

(** C9, as amended.  None of the empty results raises an exception.  With
    no course found, [main] prints "No courses found." and returns status
    1.  With no course selected it returns status 0 and prints nothing.
    With no assignment selected in "select" mode it prints, after the
    listing, "No assignment selected. Exiting." and returns status 0. *)
Theorem empty_results_end_the_run fuel value token :
  configured value token →
  (fetch_courses fuel (session_of token) (rstrip_slash value) = Return [] →
   main fuel = ([Print (lit "No courses found.")], Return 1))
  ∧ (∀ courses,
       fetch_courses fuel (session_of token) (rstrip_slash value)
       = Return courses →
       courses ≠ [] → prompt_course_selection courses = [] →
       main fuel = ([], Return 0))
  ∧ (∀ courses assignments,
       fetch_courses fuel (session_of token) (rstrip_slash value)
       = Return courses →
       courses ≠ [] → prompt_course_selection courses ≠ [] →
       collect_assignments fuel (session_of token) (rstrip_slash value)
         (prompt_course_selection courses) = Return assignments →
       prompt_export_mode = lit "select" →
       prompt_assignment_selection assignments = Ok [] →
       main fuel
       = ([ Print (format_output assignments);
            Print (lit "No assignment selected. Exiting.") ], Return 0)).
Proof.
  intros Hconf. rewrite (main_configured _ _ _ Hconf). unfold main_try.
  split; [|split].
  - intros ->. reflexivity.
  - intros courses -> Hne Hsel.
    replace (truthy courses) with true
      by (symmetry; apply truthy_list_true, Hne).
    cbn [negb]. rewrite Hsel. reflexivity.
  - intros courses assignments -> Hne Hsel Hcollect Hmode Hchosen.
    replace (truthy courses) with true
      by (symmetry; apply truthy_list_true, Hne).
    cbn [negb].
    replace (truthy (prompt_course_selection courses)) with true
      by (symmetry; apply truthy_list_true, Hsel).
    cbn [negb]. rewrite Hcollect. cbn [mbind outcome_bind mret outcome_ret].
    unfold main_export. rewrite Hmode, Hchosen.
    rewrite bool_decide_eq_true_2 by reflexivity. reflexivity.
Qed.

End Main.

(** *** The top level on the sample world *)

Lemma sample_configured : @configured environ (base ++ lit "/") (lit "secret").
Proof. repeat split; (reflexivity || discriminate). Qed.

Lemma http_failure_message_is_the_placeholder_witness :
  @main down_server dates ics environ (user (Some [101]) None None) 5
  = ([], Raise (Exception (lit "API request failed: {err}"))).
Proof.
  apply (@http_failure_message_is_the_placeholder down_server dates ics environ
           (user (Some [101]) None None) 5%nat (base ++ lit "/") (lit "secret")
           [] (lit "503 Server Error")).
  - exact sample_configured.
  - vm_compute. reflexivity.
Defined.

(** C9, as stated, fails: with courses found and none selected, the run
    ends with status 0 and nothing at all has been printed; and with no
    course found the status returned is 1, not 0. *)
Lemma empty_selection_is_not_reported :
  @fetch_courses server 5 authorised base = Return sample_courses
  ∧ @prompt_course_selection (user (Some []) None None) sample_courses = []
  ∧ @main server dates ics environ (user (Some []) None None) 5 = ([], Return 0)
  ∧ ¬ (∃ text,
         Print text
         ∈ (@main server dates ics environ (user (Some []) None None) 5).1)
  ∧ (@main empty_server dates ics environ (user None None None) 5).2 = Return 1.
Proof.
  split; [exact sample_fetch_courses|].
  split; [reflexivity|].
  assert (Hmain : @main server dates ics environ (user (Some []) None None) 5
                  = ([], Return 0)) by (vm_compute; reflexivity).
  split; [exact Hmain|].
  split; [|vm_compute; reflexivity].
  rewrite Hmain. intros [text Hin]. cbn in Hin.
  apply elem_of_nil in Hin. exact Hin.
Qed.

Lemma empty_results_end_the_run_witness :
  @main empty_server dates ics environ (user None None None) 5
  = ([Print (lit "No courses found.")], Return 1)
  ∧ @main server dates ics environ (user (Some []) None None) 5 = ([], Return 0)
  ∧ @main server dates ics environ (user (Some [101]) (Some "select") (Some [])) 5
    = ([ Print (format_output math_block);
         Print (lit "No assignment selected. Exiting.") ], Return 0).
Proof.
  split; [|split].
  - apply (proj1 (@empty_results_end_the_run empty_server dates ics environ
                    (user None None None) 5%nat _ _ sample_configured)).
    vm_compute. reflexivity.
  - apply (proj1 (proj2 (@empty_results_end_the_run server dates ics environ
                           (user (Some []) None None) 5%nat _ _
                           sample_configured)) sample_courses).
    + vm_compute. reflexivity.
    + discriminate.
    + reflexivity.
  - apply (proj2 (proj2 (@empty_results_end_the_run server dates ics environ
                           (user (Some [101]) (Some "select") (Some []))
                           5%nat _ _ sample_configured))
             sample_courses math_block).
    + vm_compute. reflexivity.
    + discriminate.
    + discriminate.
    + vm_compute. reflexivity.
    + reflexivity.
    + reflexivity.
Defined.

(** * Further properties of the code *)

(** ** The pager and the two fetchers *)

Section PagerMore.
Context `{Http}.

Lemma extend_all_fails_after session url params n msg :
  fails_after session url params n msg →
  ∀ fuel acc, (n < fuel)%nat →
  extend_all acc (paginate fuel session url params) = Raise (HTTPError msg).
Proof.
  induction 1 as [url params msg Hurl Herr | url params n msg Hurl Hok _ IH];
    intros fuel acc Hfuel; (destruct fuel as [|fuel]; [lia|]);
    simpl; rewrite Hurl; unfold raise_for_status.
  - rewrite Herr. reflexivity.
  - rewrite Hok. simpl. apply IH. lia.
Qed.

(** X1. A fetch has no partial result: when a request of the chain is
    answered with an HTTP error, after however many good pages,
    [fetch_courses] and [fetch_assignments] raise that [HTTPError] and
    the pages already received are dropped. *)
Theorem failed_page_aborts_the_fetch fuel session base_url n msg :
  (n < fuel)%nat →
  (fails_after session (Some (courses_url base_url)) courses_params n msg →
   fetch_courses fuel session base_url = Raise (HTTPError msg))
  ∧ (∀ course_id,
       fails_after session (Some (assignments_url base_url course_id))
         assignments_params n msg →
       fetch_assignments fuel session base_url course_id
       = Raise (HTTPError msg)).
Proof.
  intros Hfuel. split.
  - intros Hfail. apply (extend_all_fails_after _ _ _ _ _ Hfail). exact Hfuel.
  - intros course_id Hfail.
    apply (extend_all_fails_after _ _ _ _ _ Hfail). exact Hfuel.
Qed.

(** X2. Nothing caps the loop of [paginate]: against a server that keeps
    answering with a [next] relation and no error, the run is unfinished
    under every bound on the number of requests, whatever was gathered. *)
Theorem endless_next_links_never_end session :
  (∀ url params,
     http_error (session_get session url params) = None
     ∧ truthy (links_next (session_get session url params)) = true) →
  ∀ fuel url params acc,
    truthy url = true →
    extend_all acc (paginate fuel session url params) = OutOfFuel.
Proof.
  intros Hall fuel. induction fuel as [|fuel IH]; intros url params acc Hurl.
  - simpl. rewrite Hurl. reflexivity.
  - simpl. rewrite Hurl. unfold raise_for_status.
    destruct (Hall (default [] url) params) as [Hok Hnext].
    rewrite Hok. simpl. apply IH. exact Hnext.
Qed.

End PagerMore.

Lemma failed_page_aborts_the_fetch_witness :
  @fetch_courses flaky_server 2 authorised base
  = Raise (HTTPError (lit "502 Bad Gateway"))
  ∧ @fetch_assignments server 5 authorised base 103
    = Raise (HTTPError (lit "500 Server Error")).
Proof.
  split.
  - apply (proj1 (@failed_page_aborts_the_fetch flaky_server 2%nat authorised
                    base 1%nat (lit "502 Bad Gateway") ltac:(lia))).
    apply (@fails_later flaky_server authorised (Some (courses_url base))
             courses_params 0%nat); [reflexivity | reflexivity |].
    apply (@fails_now flaky_server authorised); reflexivity.
  - apply (proj2 (@failed_page_aborts_the_fetch server 5%nat authorised
                    base 0%nat (lit "500 Server Error") ltac:(lia))).
    apply (@fails_now server authorised); reflexivity.
Defined.

Lemma endless_next_links_never_end_witness :
  @fetch_courses looping_server 1000 authorised base = OutOfFuel.
Proof.
  apply (@endless_next_links_never_end looping_server authorised).
  - intros url params. split; [reflexivity | destruct url; reflexivity].
  - reflexivity.
Defined.

(** ** The date normaliser, the lookup and the collector *)

Section CollectorMore.
Context `{Http} `{DateLib}.

(** X3. A [due_at] that is there is never lost: for a non-empty string on
    which the library raises nothing but [ValueError] or [TypeError],
    [parse_due_at] returns a string, the rendered text when the library
    renders one and the input itself when it raises. *)
Theorem parse_due_at_keeps_a_value (s : str) :
  s ≠ [] →
  (∀ e, render s = Raised e → is_ValueError_or_TypeError e = true) →
  ∃ text,
    parse_due_at (Some s) = Ok (Some text)
    ∧ (render s = Ok text ∨ (text = s ∧ ∃ e, render s = Raised e)).
Proof.
  intros Hs Hsafe. rewrite parse_due_at_render by exact Hs.
  destruct (render s) as [text|e] eqn:Hr.
  - exists text. auto.
  - rewrite (Hsafe e eq_refl). exists s. eauto.
Qed.

Lemma course_map_of_snoc courses c :
  course_map_of (courses ++ [c])
  = if truthy (get_id c)
    then match get_id c with
         | Some k => <[k:=c]> (course_map_of courses)
         | None => course_map_of courses
         end
    else course_map_of courses.
Proof. unfold course_map_of. rewrite foldl_app. reflexivity. Qed.

Lemma course_map_of_snoc_other courses c k :
  get_id c ≠ Some k →
  course_map_of (courses ++ [c]) !! k = course_map_of courses !! k.
Proof.
  intros Hid. rewrite course_map_of_snoc.
  destruct (truthy (get_id c)); [|reflexivity].
  destruct (get_id c) as [i|]; [|reflexivity].
  apply lookup_insert_ne. congruence.
Qed.

Lemma course_map_of_snoc_same courses c k :
  get_id c = Some k → k ≠ 0 →
  course_map_of (courses ++ [c]) !! k = Some c.
Proof.
  intros Hid Hk. rewrite course_map_of_snoc, Hid.
  change (truthy (Some k)) with (negb (k =? 0)).
  destruct (Z.eqb_spec k 0) as [|_]; [contradiction|].
  apply lookup_insert_eq.
Qed.

(** X4. The lookup answers with the last fetched record of an id: a
    record whose [id] is [k], not 0, with no record of that id after it,
    is what [k] looks up; and an id that no fetched record carries looks
    up nothing. *)
Theorem course_map_of_last_record_wins :
  (∀ before c after k,
     get_id c = Some k → k ≠ 0 →
     (∀ c', c' ∈ after → get_id c' ≠ Some k) →
     course_map_of (before ++ c :: after) !! k = Some c)
  ∧ (∀ courses k,
       (∀ c, c ∈ courses → get_id c ≠ Some k) →
       course_map_of courses !! k = None).
Proof.
  split.
  - intros before c after k Hid Hk.
    induction after as [|c' after IH] using rev_ind; intros Hafter.
    + apply course_map_of_snoc_same; assumption.
    + replace (before ++ c :: after ++ [c'])
        with ((before ++ c :: after) ++ [c'])
        by (rewrite <- app_assoc; reflexivity).
      rewrite course_map_of_snoc_other.
      * apply IH. intros c0 Hc0. apply Hafter.
        apply elem_of_app. left. exact Hc0.
      * apply Hafter. apply elem_of_app. right. left.
  - intros courses k.
    induction courses as [|c courses IH] using rev_ind; intros Hnone.
    + apply lookup_empty.
    + rewrite course_map_of_snoc_other.
      * apply IH. intros c0 Hc0. apply Hnone.
        apply elem_of_app. left. exact Hc0.
      * apply Hnone. apply elem_of_app. right. left.
Qed.

Lemma course_map_of_is_Some courses c k :
  c ∈ courses → get_id c = Some k → k ≠ 0 →
  is_Some (course_map_of courses !! k).
Proof.
  intros Hin Hid Hk.
  induction courses as [|c' courses IH] using rev_ind.
  - apply elem_of_nil in Hin. contradiction.
  - destruct (decide (get_id c' = Some k)) as [Hsame|Hother].
    + rewrite (course_map_of_snoc_same _ _ _ Hsame Hk). eauto.
    + rewrite (course_map_of_snoc_other _ _ _ Hother). apply IH.
      apply elem_of_app in Hin as [Hin|Hin]; [exact Hin|].
      apply list_elem_of_singleton in Hin. congruence.
Qed.

(** X5. One failure ends the collection: when the course fetch raises,
    or when the assignments of a selected course that the lookup holds
    cannot be fetched, [collect_assignments] raises that exception, also
    when the courses selected before it were collected in full. *)
Theorem failed_course_aborts_the_collection fuel session base_url :
  (∀ e ids,
     fetch_courses fuel session base_url = Raise e →
     collect_assignments fuel session base_url ids = Raise e)
  ∧ (∀ courses before course_id course after collected e,
       fetch_courses fuel session base_url = Return courses →
       collect_assignments fuel session base_url before = Return collected →
       course_map_of courses !! course_id = Some course →
       fetch_assignments fuel session base_url course_id = Raise e →
       collect_assignments fuel session base_url
         (before ++ course_id :: after) = Raise e).
Proof.
  split.
  - intros e ids Hfetch. unfold collect_assignments. rewrite Hfetch.
    reflexivity.
  - intros courses before course_id course after collected e
      Hcourses Hbefore Hc Hfetch.
    unfold collect_assignments in *. rewrite Hcourses in *.
    cbn [mbind outcome_bind] in *. rewrite collect_loop_app, Hbefore.
    cbn [mbind outcome_bind collect_loop]. rewrite Hc, Hfetch. reflexivity.
Qed.

Lemma make_assignment_canonical cn item :
  (∀ s e, get_due_at item = Some s → render s = Raised e →
          is_ValueError_or_TypeError e = true) →
  make_assignment cn item = Ok (canonical cn item).
Proof.
  intros Hsafe. unfold make_assignment, canonical.
  pose proof (parse_due_at_cases (get_due_at item)) as Hcases.
  destruct (parse_due_at (get_due_at item)) as [due|e]; [reflexivity|].
  destruct Hcases as (Hnot & s & Hs & _ & Hr).
  rewrite (Hsafe s e Hs Hr) in Hnot. discriminate.
Qed.

Lemma mapM_make_assignment_canonical cn items :
  dates_safe_on items →
  mapM (make_assignment cn) items = Ok (canonical cn <$> items).
Proof.
  induction items as [|item items IH]; intros Hsafe; [reflexivity|].
  cbn [mapM]. rewrite make_assignment_canonical.
  - cbn [mbind result_bind]. rewrite IH; [reflexivity|].
    intros i s e Hi. apply Hsafe. right. exact Hi.
  - intros s e. apply Hsafe. left.
Qed.

Lemma spec_collect_canonical course_map upstream ids :
  (∀ id course, id ∈ ids → course_map !! id = Some course →
                dates_safe_on (upstream id)) →
  spec_collect course_map upstream ids
  = Ok (ids ≫= canonical_block course_map upstream).
Proof.
  induction ids as [|id ids IH]; intros Hsafe; [reflexivity|].
  rewrite spec_collect_cons, IH
    by (intros i c Hi; apply Hsafe; right; exact Hi).
  assert (Hblock : spec_block course_map upstream id
                   = Ok (canonical_block course_map upstream id)).
  { unfold spec_block, canonical_block.
    destruct (course_map !! id) as [course|] eqn:Hc; [|reflexivity].
    apply mapM_make_assignment_canonical.
    eapply Hsafe; [left | exact Hc]. }
  rewrite Hblock. reflexivity.
Qed.

(** X6. A bad timestamp costs no record.  With the fetches succeeding and
    a date library that raises nothing but [ValueError] or [TypeError] on
    the upstream [due_at] values, [collect_assignments] returns, and what
    it returns holds one record for every upstream record of every
    selected course that the lookup holds. *)
Theorem collect_assignments_returns_every_record fuel session base_url ids
    courses upstream :
  fetch_courses fuel session base_url = Return courses →
  (∀ id course,
     id ∈ ids → course_map_of courses !! id = Some course →
     fetch_assignments fuel session base_url id = Return (upstream id)
     ∧ dates_safe_on (upstream id)) →
  collect_assignments fuel session base_url ids
  = Return (ids ≫= canonical_block (course_map_of courses) upstream)
  ∧ length (ids ≫= canonical_block (course_map_of courses) upstream)
    = sum_list
        ((λ id, match course_map_of courses !! id with
                | Some _ => length (upstream id)
                | None => 0%nat
                end) <$> ids).
Proof.
  intros Hcourses Hall. split.
  - unfold collect_assignments. rewrite Hcourses. cbn [mbind outcome_bind].
    rewrite (collect_loop_spec _ _ _ _ upstream ids)
      by (intros id c Hid Hc; apply (Hall id c Hid Hc)).
    rewrite spec_collect_canonical
      by (intros id c Hid Hc; apply (Hall id c Hid Hc)).
    reflexivity.
  - clear Hall. induction ids as [|id ids IH]; [reflexivity|].
    cbn [mbind list_bind fmap list_fmap sum_list sum_list_with].
    rewrite length_app. f_equal; [|exact IH].
    unfold canonical_block.
    destruct (course_map_of courses !! id); [apply length_fmap | reflexivity].
Qed.

(** X7. What the course prompt offers is what the collector finds: every
    choice comes from a fetched record with that id, not 0, is labelled
    with the course name the collector derives from such a record, and
    its id is a key of the lookup, so that a course picked from the
    choices is never passed over. *)
Theorem offered_courses_are_found courses label k :
  (label, k) ∈ course_choices courses →
  (∃ c, c ∈ courses ∧ get_id c = Some k ∧ label = course_name_of c k)
  ∧ k ≠ 0
  ∧ is_Some (course_map_of courses !! k).
Proof.
  intros Hin. unfold course_choices in Hin.
  apply list_elem_of_omap in Hin as (c & Hc & Hchoice).
  destruct (get_id c) as [i|] eqn:Hid; [|discriminate Hchoice].
  change (truthy (Some i)) with (negb (i =? 0)) in Hchoice.
  destruct (Z.eqb_spec i 0) as [|Hi]; [discriminate Hchoice|].
  cbn in Hchoice. injection Hchoice as Hlabel Hk. subst i.
  split; [|split].
  - exists c. split; [exact Hc|]. split; [exact Hid|].
    rewrite <- Hlabel. reflexivity.
  - exact Hi.
  - eapply course_map_of_is_Some; eassumption.
Qed.

End CollectorMore.

Lemma parse_due_at_keeps_a_value_witness :
  ∃ text,
    @parse_due_at dates (Some (lit "next Tuesday")) = Ok (Some text)
    ∧ (@render dates (lit "next Tuesday") = Ok text
       ∨ (text = lit "next Tuesday"
          ∧ ∃ e, @render dates (lit "next Tuesday") = Raised e)).
Proof.
  apply (@parse_due_at_keeps_a_value dates (lit "next Tuesday")).
  - discriminate.
  - intros e He. vm_compute in He. injection He as <-. reflexivity.
Defined.

Lemma course_map_of_last_record_wins_witness :
  course_map_of ([math] ++ art :: [ghost; bare]) !! 103 = Some art
  ∧ course_map_of sample_courses !! 999 = None.
Proof.
  split.
  - apply (proj1 course_map_of_last_record_wins [math] art [ghost; bare] 103);
      [reflexivity | discriminate |].
    intros c' Hc'. rewrite !elem_of_cons, elem_of_nil in Hc'.
    destruct Hc' as [->|[->|[]]]; discriminate.
  - apply (proj2 course_map_of_last_record_wins sample_courses 999).
    intros c Hc. unfold sample_courses in Hc.
    rewrite !elem_of_cons, elem_of_nil in Hc.
    destruct Hc as [->|[->|[->|[->|[->|[]]]]]]; discriminate.
Defined.

Lemma failed_course_aborts_the_collection_witness :
  @collect_assignments down_server dates 5 authorised base [101]
  = Raise (HTTPError (lit "503 Server Error"))
  ∧ @collect_assignments server dates 5 authorised base ([101] ++ 103 :: [102])
    = Raise (HTTPError (lit "500 Server Error")).
Proof.
  split.
  - apply (proj1 (@failed_course_aborts_the_collection down_server dates
                    5%nat authorised base)).
    vm_compute. reflexivity.
  - apply (proj2 (@failed_course_aborts_the_collection server dates
                    5%nat authorised base)
             sample_courses [101] 103 art [102] math_block).
    + exact sample_fetch_courses.
    + exact sample_collect_math.
    + vm_compute. reflexivity.
    + vm_compute. reflexivity.
Defined.

Lemma sample_dates_safe course_id :
  @dates_safe_on dates (sample_upstream course_id).
Proof.
  intros item s e Hitem Hdue Hr. unfold sample_upstream in Hitem.
  destruct (course_id =? 101);
    [|destruct (course_id =? 102)];
    rewrite ?elem_of_cons, ?elem_of_nil in Hitem;
    repeat (destruct Hitem as [->|Hitem] || destruct Hitem);
    try discriminate Hdue;
    injection Hdue as <-; vm_compute in Hr;
    (discriminate Hr || (injection Hr as <-; reflexivity)).
Qed.

Lemma collect_assignments_returns_every_record_witness :
  @collect_assignments server dates 5 authorised base [101; 999; 102]
  = Return (math_block ++ essay_block)
  ∧ length (math_block ++ essay_block) = 4%nat.
Proof.
  apply (@collect_assignments_returns_every_record server dates 5%nat
           authorised base [101; 999; 102] sample_courses sample_upstream).
  - exact sample_fetch_courses.
  - intros id course Hin Hc. split; [|apply sample_dates_safe].
    rewrite !elem_of_cons, elem_of_nil in Hin.
    destruct Hin as [->|[->|[->|[]]]];
      try (vm_compute in Hc; discriminate Hc);
      vm_compute; reflexivity.
Defined.

Lemma offered_courses_are_found_witness :
  (∃ c, c ∈ sample_courses ∧ get_id c = Some 102
        ∧ lit "Course 102" = course_name_of c 102)
  ∧ 102 ≠ 0
  ∧ is_Some (course_map_of sample_courses !! 102).
Proof.
  apply (offered_courses_are_found sample_courses (lit "Course 102") 102).
  vm_compute. right. left.
Defined.

(** ** The formatter, by runs *)

Lemma groups_cons a rest :
  groups (a :: rest)
  = match groups rest with
    | (cn, items) :: gs =>
        if bool_decide (course_name a = cn)
        then (cn, a :: items) :: gs
        else (course_name a, [a]) :: (cn, items) :: gs
    | [] => [(course_name a, [a])]
    end.
Proof. reflexivity. Qed.

Lemma format_lines_cons a rest current :
  format_lines (a :: rest) current []
  = (if bool_decide (Some (course_name a) = current) then []
     else [ []; course_name a; replicate (length (course_name a)) hyphen ])
    ++ [bullet_line a]
    ++ format_lines rest (Some (course_name a)) [].
Proof.
  cbn [format_lines]. rewrite format_lines_acc.
  destruct (bool_decide (Some (course_name a) = current)) eqn:Hcur; cbn [negb].
  - apply bool_decide_eq_true in Hcur. rewrite <- Hcur. reflexivity.
  - rewrite <- app_assoc. reflexivity.
Qed.

Lemma format_lines_groups assignments current :
  format_lines assignments current []
  = match groups assignments with
    | (cn, items) :: gs =>
        if bool_decide (Some cn = current)
        then (bullet_line <$> items) ++ concat (group_lines <$> gs)
        else concat (group_lines <$> groups assignments)
    | [] => []
    end.
Proof.
  revert current. induction assignments as [|a rest IH]; intros current;
    [reflexivity|].
  rewrite format_lines_cons, IH, groups_cons.
  destruct (groups rest) as [|[cn items] gs].
  - destruct (bool_decide (Some (course_name a) = current)); reflexivity.
  - destruct (bool_decide (course_name a = cn)) eqn:Hsame.
    + apply bool_decide_eq_true in Hsame. rewrite Hsame.
      rewrite (bool_decide_eq_true_2 (Some cn = Some cn)) by reflexivity.
      destruct (bool_decide (Some cn = current)); reflexivity.
    + apply bool_decide_eq_false in Hsame.
      rewrite (bool_decide_eq_false_2 (Some cn = Some (course_name a)))
        by congruence.
      destruct (bool_decide (Some (course_name a) = current)); reflexivity.
Qed.

(** The runs are the list cut where the course name changes. *)
Lemma groups_cut_at_course_changes assignments :
  concat (snd <$> groups assignments) = assignments
  ∧ Forall (λ g, g.2 ≠ [] ∧ Forall (λ a, course_name a = g.1) g.2)
      (groups assignments)
  ∧ (∀ i g g',
       groups assignments !! i = Some g →
       groups assignments !! S i = Some g' → g.1 ≠ g'.1).
Proof.
  induction assignments as [|a rest (IHcat & IHall & IHadj)].
  - split; [reflexivity|]. split; [constructor|].
    intros i g g' Hg. cbn in Hg. discriminate Hg.
  - rewrite groups_cons.
    destruct (groups rest) as [|[cn items] gs] eqn:Hrest.
    + cbn in IHcat. subst rest.
      split; [reflexivity|]. split.
      * repeat constructor. discriminate.
      * intros i g g' _ Hg'. destruct i; discriminate.
    + apply Forall_cons in IHall as [[Hitems Hnames] IHall]. cbn in Hitems, Hnames.
      destruct (bool_decide (course_name a = cn)) eqn:Hsame.
      * apply bool_decide_eq_true in Hsame.
        split; [cbn in *; rewrite IHcat; reflexivity|]. split.
        -- constructor; [|exact IHall]. cbn.
           split; [discriminate | constructor; assumption].
        -- intros [|i] g g' Hg Hg'.
           ++ injection Hg as <-. apply (IHadj 0%nat (cn, items) g');
                [reflexivity | exact Hg'].
           ++ apply (IHadj (S i) g g'); assumption.
      * apply bool_decide_eq_false in Hsame.
        split; [cbn in *; rewrite IHcat; reflexivity|]. split.
        -- constructor; [|constructor; [|exact IHall]]; cbn.
           ++ split; [discriminate | repeat constructor].
           ++ split; assumption.
        -- intros [|i] g g' Hg Hg'.
           ++ injection Hg as <-. injection Hg' as <-. exact Hsame.
           ++ apply (IHadj i g g'); assumption.
Qed.

(** X8. [format_output] writes the list run by run: the lines it joins
    are, for each run, a blank line, the course name, an underline of as
    many hyphens as the name has characters, and one bullet line per
    assignment of the run.  The runs are the list cut where the course
    name changes: put back together they are the list, none is empty,
    each holds assignments of its own course name only, and two runs
    that follow each other have different names. *)
Theorem format_output_by_runs assignments :
  format_lines assignments None [] = concat (group_lines <$> groups assignments)
  ∧ (assignments ≠ [] →
     format_output assignments
     = lstrip (join [newline] (concat (group_lines <$> groups assignments))))
  ∧ concat (snd <$> groups assignments) = assignments
  ∧ Forall (λ g, g.2 ≠ [] ∧ Forall (λ a, course_name a = g.1) g.2)
      (groups assignments)
  ∧ (∀ i g g',
       groups assignments !! i = Some g →
       groups assignments !! S i = Some g' → g.1 ≠ g'.1).
Proof.
  assert (Hlines : format_lines assignments None []
                   = concat (group_lines <$> groups assignments)).
  { rewrite format_lines_groups.
    destruct (groups assignments) as [|[cn items] gs]; reflexivity. }
  split; [exact Hlines|].
  split; [|apply groups_cut_at_course_changes].
  intros Hne. unfold format_output. rewrite Hlines.
  destruct assignments; [congruence | reflexivity].
Qed.

Lemma elem_of_lstrip (x : N) (s : str) :
  is_space x = false → x ∈ s → x ∈ lstrip s.
Proof.
  intros Hx. induction s as [|c s IH]; intros Hin; [exact Hin|].
  cbn [lstrip]. destruct (is_space c) eqn:Hc; [|exact Hin].
  apply IH. apply elem_of_cons in Hin as [->|Hin]; [congruence | exact Hin].
Qed.

Lemma elem_of_join (x : N) (sep l : str) (lines : list str) :
  l ∈ lines → x ∈ l → x ∈ join sep lines.
Proof.
  intros Hl Hx. induction lines as [|l0 lines IH];
    [apply elem_of_nil in Hl; contradiction|].
  cbn [join]. apply elem_of_cons in Hl as [<-|Hl].
  - destruct lines; [exact Hx | apply elem_of_app; left; exact Hx].
  - destruct lines as [|l1 lines];
      [apply elem_of_nil in Hl; contradiction|].
    apply elem_of_app. right. apply elem_of_app. right. apply IH, Hl.
Qed.

(** X9. The message for an empty list cannot be mistaken for a listing:
    [format_output] returns "No assignments found." for the empty list
    and for no other, since every listing has a bullet in it. *)
Theorem format_output_message_iff_empty assignments :
  format_output assignments = lit "No assignments found." ↔ assignments = [].
Proof.
  split; [|intros ->; reflexivity].
  destruct assignments as [|a rest]; [reflexivity|].
  intros Hout. exfalso.
  assert (Hbullet : bullet ∈ format_output (a :: rest)).
  { unfold format_output. cbn [truthy truthy_list negb].
    apply elem_of_lstrip; [reflexivity|].
    apply (elem_of_join _ _ (bullet_line a)); [|left].
    rewrite format_lines_cons.
    apply elem_of_app. right. left. }
  rewrite Hout in Hbullet. apply list_elem_of_In in Hbullet.
  vm_compute in Hbullet.
  repeat (destruct Hbullet as [Hbullet|Hbullet]; [discriminate Hbullet|]).
  exact Hbullet.
Qed.

Lemma format_output_first_header_kept_witness :
  format_lines math_block None []
  = [] :: tail (format_lines math_block None [])
  ∧ format_output math_block
    = join [newline] (tail (format_lines math_block None [])).
Proof.
  apply (format_output_first_header_kept
           (asg "Math" "HW1" (Some "2024-01-15 05:00 EST")
              (Some "https://canvas.test/a/1"))
           _ 77%N (lit "ath")); reflexivity.
Defined.

Lemma format_output_by_runs_witness :
  format_output (math_block ++ essay_block)
  = lstrip (join [newline]
              (group_lines (lit "Math", math_block)
               ++ group_lines (lit "Course 102", essay_block))).
Proof.
  etransitivity.
  - apply (proj1 (proj2 (format_output_by_runs (math_block ++ essay_block)))).
    discriminate.
  - vm_compute. reflexivity.
Defined.

(** ** Request URLs *)

Lemma lit_inj (s t : string) : lit s = lit t → s = t.
Proof.
  unfold lit. intros Heq.
  assert (Hinj : Inj (=) (=) N_of_ascii).
  { intros a b Hab. rewrite <- (ascii_N_embedding a), <- (ascii_N_embedding b).
    rewrite Hab. reflexivity. }
  apply (inj (fmap N_of_ascii)) in Heq.
  rewrite <- (string_of_list_ascii_of_string s),
          <- (string_of_list_ascii_of_string t), Heq.
  reflexivity.
Qed.

(** X11. Two course ids never share a request: the assignments URLs of
    different ids under one base URL are different. *)
Theorem assignments_urls_differ (base_url : str) (i j : Z) :
  i ≠ j → assignments_url base_url i ≠ assignments_url base_url j.
Proof.
  intros Hij Heq. apply Hij. unfold assignments_url in Heq.
  apply app_inv_head in Heq. apply app_inv_head in Heq.
  apply app_inv_tail in Heq. unfold str_of_int in Heq.
  apply lit_inj in Heq. apply (inj pretty) in Heq. exact Heq.
Qed.

Lemma assignments_urls_differ_witness :
  assignments_url base 101 ≠ assignments_url base 102.
Proof. apply (assignments_urls_differ base 101 102). discriminate. Defined.

(** ** The prompts and the top level *)

Section MainMore.
Context `{Http} `{DateLib} `{IcsLib} `{Environ} `{User}.

Lemma pick_in_range assignments indices :
  Forall (λ i, i < length assignments)%nat indices →
  ∃ chosen,
    pick assignments indices = Ok chosen
    ∧ Forall2 (λ i a, assignments !! i = Some a) indices chosen.
Proof.
  induction 1 as [|i indices Hi _ (chosen & Hpick & Hall)].
  - exists []. split; [reflexivity | constructor].
  - destruct (lookup_lt_is_Some_2 assignments i Hi) as [a Ha].
    exists (a :: chosen). cbn [pick]. rewrite Ha, Hpick.
    split; [reflexivity | constructor; assumption].
Qed.

Lemma pick_raises assignments indices e :
  pick assignments indices = Raised e → e = IndexError.
Proof.
  induction indices as [|i indices IH]; cbn [pick]; [discriminate|].
  destruct (assignments !! i); [|congruence].
  destruct (pick assignments indices); cbn; [discriminate|].
  intros [= <-]. apply IH. reflexivity.
Qed.

Lemma pick_out_of_range assignments indices :
  Exists (λ i, length assignments ≤ i)%nat indices →
  pick assignments indices = Raised IndexError.
Proof.
  induction 1 as [i indices Hi | i indices _ IH]; cbn [pick].
  - rewrite (lookup_ge_None_2 assignments i Hi). reflexivity.
  - destruct (assignments !! i); [|reflexivity]. rewrite IH. reflexivity.
Qed.

(** X12. The assignments picked are those the user marked, in the order
    of the answer: when every index of the answer is one of the offered
    choices, [prompt_assignment_selection] returns the assignments at
    these indices; an index past the end of the list raises
    [IndexError]. *)
Theorem marked_assignments_are_picked assignments indices :
  assignments ≠ [] →
  answer_assignments (imap (λ idx a, (assignment_label a, idx)) assignments)
  = Some indices →
  ((∀ i, i ∈ indices →
         ∃ label,
           (label, i) ∈ imap (λ idx a, (assignment_label a, idx)) assignments) →
   ∃ chosen,
     prompt_assignment_selection assignments = Ok chosen
     ∧ Forall2 (λ i a, assignments !! i = Some a) indices chosen)
  ∧ ((∃ i, i ∈ indices ∧ (length assignments ≤ i)%nat) →
     prompt_assignment_selection assignments = Raised IndexError).
Proof.
  intros Hne Hanswer. unfold prompt_assignment_selection.
  replace (truthy assignments) with true
    by (symmetry; apply truthy_list_true, Hne).
  cbn [negb]. rewrite Hanswer. split.
  - intros Hoffered. apply pick_in_range. apply Forall_forall.
    intros i Hi. destruct (Hoffered i Hi) as [label Hlabel].
    apply elem_of_lookup_imap in Hlabel as (idx & a & Heq & Ha).
    injection Heq as _ ->. eapply lookup_lt_Some, Ha.
  - intros (i & Hi & Hlen). apply pick_out_of_range.
    apply Exists_exists. eauto.
Qed.

Lemma extend_all_not_exit acc g code : extend_all acc g ≠ Exit code.
Proof.
  revert acc. induction g as [|page g IH|e|]; intros acc; cbn;
    try discriminate. apply IH.
Qed.

Lemma collect_assignments_not_exit fuel session base_url ids code :
  collect_assignments fuel session base_url ids ≠ Exit code.
Proof.
  unfold collect_assignments.
  destruct (fetch_courses fuel session base_url) as [courses|e|c|] eqn:Hf;
    cbn [mbind outcome_bind]; try discriminate;
    [|exfalso; eapply extend_all_not_exit, Hf].
  generalize (@nil Assignment).
  induction ids as [|id ids IH]; intros results; cbn [collect_loop];
    [discriminate|].
  destruct (course_map_of courses !! id) as [course|]; [|apply IH].
  destruct (fetch_assignments fuel session base_url id) as [items|e|c|] eqn:Ha;
    cbn [mbind outcome_bind]; try discriminate;
    [|exfalso; eapply extend_all_not_exit, Ha].
  destruct (append_items _ items results); cbn [lift mbind outcome_bind];
    [apply IH | discriminate].
Qed.

Lemma get_env_cases name :
  get_env name
  = ([PrintErr (lit "Missing required environment variable: " ++ name)], Exit 1)
  ∨ ∃ value, get_env name = ([], Return value) ∧ value ≠ [].
Proof.
  unfold get_env. destruct (truthy (getenv name)) eqn:Hset; cbn [negb].
  - right. apply truthy_option_true in Hset as (value & -> & Hne).
    exists value. split; [reflexivity | apply truthy_list_true, Hne].
  - left. reflexivity.
Qed.

Lemma main_try_cases fuel session base_url :
  match main_try fuel session base_url with
  | (out, Return (inl status)) =>
      (status = 1 ∧ out = [Print (lit "No courses found.")])
      ∨ (status = 0 ∧ out = [])
  | (out, Exit _) => False
  | (out, _) => out = []
  end.
Proof.
  unfold main_try.
  destruct (fetch_courses fuel session base_url) as [courses|e|c|] eqn:Hf;
    try reflexivity; [|eapply extend_all_not_exit, Hf].
  destruct (truthy courses); cbn [negb]; [|left; auto].
  destruct (truthy (prompt_course_selection courses)); cbn [negb];
    [|right; auto].
  destruct (collect_assignments _ _ _ _) as [a|e|c|] eqn:Hc;
    cbn; try reflexivity.
  eapply collect_assignments_not_exit, Hc.
Qed.

Lemma export_cases out assignments :
  match (let '(written, r) := create_ics assignments default_filename in
         (out ++ written, lift r ≫= λ _, Return 0)) with
  | (_, Return status) => status = 0
  | (_, Raise e) => is_HTTPError e = false
  | (_, Exit _) | (_, OutOfFuel) => False
  end.
Proof.
  destruct (create_ics assignments default_filename) as [written [[]|e]]
    eqn:Hcreate; cbn; [reflexivity|].
  eapply create_ics_raises_not_http, Hcreate.
Qed.

Lemma main_export_cases assignments :
  match main_export assignments with
  | (_, Return status) => status = 0
  | (_, Raise e) => is_HTTPError e = false
  | (_, Exit _) | (_, OutOfFuel) => False
  end.
Proof.
  unfold main_export.
  destruct (bool_decide (prompt_export_mode = lit "select"));
    [|apply export_cases].
  destruct (prompt_assignment_selection assignments) as [chosen|e] eqn:Hp.
  - destruct (truthy chosen); cbn [negb]; [apply export_cases | reflexivity].
  - unfold prompt_assignment_selection in Hp.
    destruct (truthy assignments); cbn [negb] in Hp; [|discriminate].
    destruct (answer_assignments _); [|discriminate].
    apply pick_raises in Hp. subst e. reflexivity.
Qed.

(** X13. However a run of [main] ends, it ends in one of these ways: it
    returns status 0, or status 1 with nothing printed but "No courses
    found."; it exits with status 1 after naming a missing environment
    variable on the error stream; or it raises, and an [HTTPError] is
    never what it raises. *)
Theorem main_ends_in_a_known_way fuel :
  match main fuel with
  | (out, Return status) =>
      status = 0 ∨ (status = 1 ∧ out = [Print (lit "No courses found.")])
  | (out, Exit code) =>
      code = 1
      ∧ ∃ name,
          out = [PrintErr (lit "Missing required environment variable: "
                           ++ name)]
  | (out, Raise e) => is_HTTPError e = false
  | (out, OutOfFuel) => out = []
  end.
Proof.
  unfold main, make_session.
  destruct (get_env_cases (lit "CANVAS_BASE_URL")) as [-> | (value & -> & _)];
    [split; eauto|].
  destruct (get_env_cases (lit "CANVAS_API_TOKEN")) as [-> | (token & -> & _)];
    [split; eauto|].
  cbn [mbind outcome_bind mret outcome_ret app].
  pose proof (main_try_cases fuel
                {| headers := [(lit "Authorization", lit "Bearer " ++ token)] |}
                (rstrip_slash value)) as Htry.
  destruct (main_try _ _ _) as [out [[status|assignments]|e|code|]].
  - destruct Htry as [[-> ->] | [-> ->]];
      [right; split; reflexivity | left; reflexivity].
  - pose proof (main_export_cases assignments) as Hexp.
    destruct (main_export assignments) as [out' [status|e|code|]]; cbn.
    + left. exact Hexp.
    + exact Hexp.
    + contradiction.
    + contradiction.
  - destruct (is_HTTPError e) eqn:He; [reflexivity | exact He].
  - contradiction.
  - exact Htry.
Qed.

(** X14. Without its configuration [main] asks the server nothing: when
    [CANVAS_BASE_URL] is unset or empty, or when it is set and
    [CANVAS_API_TOKEN] is unset or empty, the run names that variable on
    the error stream and exits with status 1, whatever the server and
    the user would answer. *)
Theorem missing_configuration_exits fuel :
  (truthy (getenv (lit "CANVAS_BASE_URL")) = false →
   main fuel
   = ([PrintErr (lit "Missing required environment variable: "
                 ++ lit "CANVAS_BASE_URL")], Exit 1))
  ∧ (truthy (getenv (lit "CANVAS_BASE_URL")) = true →
     truthy (getenv (lit "CANVAS_API_TOKEN")) = false →
     main fuel
     = ([PrintErr (lit "Missing required environment variable: "
                   ++ lit "CANVAS_API_TOKEN")], Exit 1)).
Proof.
  unfold main, make_session, get_env. split.
  - intros ->. reflexivity.
  - intros -> ->. reflexivity.
Qed.

(** X15. With courses fetched and selected and the assignments
    collected, [main] prints the listing and then runs [create_ics] on
    "assignments.ics": over all the assignments unless the mode answered
    is "select" (no answer counts as "all"), over the picked ones in
    "select" mode when some are picked.  It returns status 0 when the
    export succeeds, and when the export raises, [main] raises that
    exception after what the export did. *)
Theorem main_exports fuel value token courses assignments :
  configured value token →
  fetch_courses fuel (session_of token) (rstrip_slash value) = Return courses →
  courses ≠ [] → prompt_course_selection courses ≠ [] →
  collect_assignments fuel (session_of token) (rstrip_slash value)
    (prompt_course_selection courses) = Return assignments →
  (prompt_export_mode ≠ lit "select" →
   main fuel
   = ([Print (format_output assignments)]
      ++ (create_ics assignments (lit "assignments.ics")).1,
      match (create_ics assignments (lit "assignments.ics")).2 with
      | Ok _ => Return 0
      | Raised e => Raise e
      end))
  ∧ (∀ chosen,
       prompt_export_mode = lit "select" →
       prompt_assignment_selection assignments = Ok chosen → chosen ≠ [] →
       main fuel
       = ([Print (format_output assignments)]
          ++ (create_ics chosen (lit "assignments.ics")).1,
          match (create_ics chosen (lit "assignments.ics")).2 with
          | Ok _ => Return 0
          | Raised e => Raise e
          end))
  ∧ (answer_mode [ (lit "All assignments", lit "all");
                   (lit "Select assignments", lit "select") ] = None →
     prompt_export_mode = lit "all").
Proof.
  intros Hconf Hcourses Hne Hsel Hcollect.
  rewrite (main_configured _ _ _ Hconf). unfold main_try.
  rewrite Hcourses.
  replace (truthy courses) with true
    by (symmetry; apply truthy_list_true, Hne).
  replace (truthy (prompt_course_selection courses)) with true
    by (symmetry; apply truthy_list_true, Hsel).
  cbn [negb]. rewrite Hcollect. cbn [mbind outcome_bind mret outcome_ret].
  unfold main_export, default_filename. split; [|split].
  - intros Hmode. rewrite bool_decide_eq_false_2 by exact Hmode.
    destruct (create_ics assignments (lit "assignments.ics"))
      as [written [[]|e]]; reflexivity.
  - intros chosen Hmode Hchosen Hsome. rewrite Hmode, Hchosen.
    rewrite bool_decide_eq_true_2 by reflexivity.
    replace (truthy chosen) with true
      by (symmetry; apply truthy_list_true, Hsome).
    cbn [negb].
    destruct (create_ics chosen (lit "assignments.ics"))
      as [written [[]|e]]; reflexivity.
  - intros Hnone. unfold prompt_export_mode. rewrite Hnone. reflexivity.
Qed.

(** X16. Only an [HTTPError] is rewritten: any other exception raised
    while collecting, such as one of the date library, leaves [main] as
    it is, with nothing printed. *)
Theorem other_exceptions_pass_through_main fuel value token courses e :
  configured value token →
  fetch_courses fuel (session_of token) (rstrip_slash value) = Return courses →
  courses ≠ [] → prompt_course_selection courses ≠ [] →
  collect_assignments fuel (session_of token) (rstrip_slash value)
    (prompt_course_selection courses) = Raise e →
  is_HTTPError e = false →
  main fuel = ([], Raise e).
Proof.
  intros Hconf Hcourses Hne Hsel Hcollect He.
  rewrite (main_configured _ _ _ Hconf). unfold main_try.
  rewrite Hcourses.
  replace (truthy courses) with true
    by (symmetry; apply truthy_list_true, Hne).
  replace (truthy (prompt_course_selection courses)) with true
    by (symmetry; apply truthy_list_true, Hsel).
  cbn [negb]. rewrite Hcollect. cbn [mbind outcome_bind]. rewrite He.
  reflexivity.
Qed.

Lemma bullet_line_in_format_lines a assignments current :
  a ∈ assignments → bullet_line a ∈ format_lines assignments current [].
Proof.
  intros Hin. revert current.
  induction assignments as [|a0 rest IH]; intros current;
    [apply elem_of_nil in Hin; contradiction|].
  rewrite format_lines_cons. apply elem_of_app. right.
  apply elem_of_cons in Hin as [->|Hin]; [left | right; apply IH, Hin].
Qed.

Lemma add_events_app assignments1 assignments2 cal :
  add_events (assignments1 ++ assignments2) cal
  = (cal' ← add_events assignments1 cal; add_events assignments2 cal').
Proof.
  revert cal. induction assignments1 as [|a rest IH]; intros cal;
    [reflexivity|].
  cbn [app add_events].
  destruct (negb (truthy (due_at a))); [apply IH|].
  destruct (parse _) as [dt|_]; [|apply IH].
  destruct (begin_error dt); [reflexivity | apply IH].
Qed.

(** X17. An upstream record without a [due_at] (missing, null or empty)
    goes through the whole pipeline: the record built from it has no
    [due_at]; in any list, the lines that [format_output] joins hold its
    bullet with "No due date", and alone it is listed under its course
    with that bullet; and [create_ics] does with a list that holds it
    what it does with the list without it. *)
Theorem missing_due_at_end_to_end cn item :
  truthy (get_due_at item) = false →
  ∃ a,
    make_assignment cn item = Ok a
    ∧ due_at a = None
    ∧ (∀ before after,
         [bullet; space] ++ name a ++ [space; em_dash; space]
         ++ lit "No due date"
         ++ (if truthy (html_url a)
             then lit " (" ++ default [] (html_url a) ++ lit ")"
             else [])
         ∈ format_lines (before ++ a :: after) None [])
    ∧ format_output [a]
      = lstrip (join [newline]
                  [ []; cn; replicate (length cn) hyphen;
                    [bullet; space] ++ name a ++ [space; em_dash; space]
                    ++ lit "No due date"
                    ++ (if truthy (html_url a)
                        then lit " (" ++ default [] (html_url a) ++ lit ")"
                        else []) ])
    ∧ (∀ before after filename,
         create_ics (before ++ a :: after) filename
         = create_ics (before ++ after) filename).
Proof.
  intros Hdue. unfold make_assignment.
  rewrite (parse_due_at_falsy _ Hdue). cbn [mbind result_bind mret result_ret].
  eexists. split; [reflexivity|]. split; [reflexivity|].
  split; [|split].
  - intros before after.
    apply (bullet_line_in_format_lines
             {| course_name := cn;
                name := or_str (get_name item) (lit "Untitled");
                due_at := None;
                html_url := get_html_url item |}).
    apply elem_of_app. right. left.
  - reflexivity.
  - intros before after filename. unfold create_ics.
    rewrite !add_events_app. reflexivity.
Qed.

End MainMore.

(** *** The prompts and the top level on the sample world *)

Lemma marked_assignments_are_picked_witness :
  (∃ chosen,
     @prompt_assignment_selection (user None None (Some [2; 0]%nat)) math_block
     = Ok chosen
     ∧ Forall2 (λ i a, math_block !! i = Some a) [2; 0]%nat chosen)
  ∧ @prompt_assignment_selection (user None None (Some [7]%nat)) math_block
    = Raised IndexError.
Proof.
  split.
  - apply (proj1 (@marked_assignments_are_picked
                    (user None None (Some [2; 0]%nat)) math_block [2; 0]%nat
                    ltac:(discriminate) eq_refl)).
    intros i Hi. rewrite !elem_of_cons, elem_of_nil in Hi.
    destruct Hi as [->|[->|[]]]; eexists; apply elem_of_lookup_imap;
      [exists 2%nat | exists 0%nat]; eexists; split; reflexivity.
  - apply (proj2 (@marked_assignments_are_picked
                    (user None None (Some [7]%nat)) math_block [7]%nat
                    ltac:(discriminate) eq_refl)).
    exists 7%nat. split; [left | cbn; lia].
Defined.

Lemma missing_configuration_exits_witness :
  @main server dates ics no_environ (user None None None) 5
  = ([PrintErr (lit "Missing required environment variable: CANVAS_BASE_URL")],
     Exit 1)
  ∧ @main server dates ics tokenless_environ (user None None None) 5
    = ([PrintErr (lit "Missing required environment variable: CANVAS_API_TOKEN")],
       Exit 1).
Proof.
  split.
  - apply (proj1 (@missing_configuration_exits server dates ics no_environ
                    (user None None None) 5%nat)).
    reflexivity.
  - apply (proj2 (@missing_configuration_exits server dates ics tokenless_environ
                    (user None None None) 5%nat)); reflexivity.
Defined.

Lemma main_exports_witness :
  @main server dates ics environ (user (Some [101; 102]) (Some "all") None) 5
  = ([ Print (format_output (math_block ++ essay_block));
       OpenFile (lit "assignments.ics");
       WriteFile (lit "assignments.ics")
         (replicate 2
            (@Build_Event dates (lit "HW1")
               {| year := 2024; month := 1; day := 15; hour := 5; minute := 0;
                  tzname := lit "EST" |}
               (lit "https://canvas.test/a/1") (lit "Course: Math")));
       Print ([newline] ++ lit "Created calendar file: assignments.ics") ],
     Return 0)
  ∧ @main server dates ics environ
      (user (Some [101]) (Some "select") (Some [1]%nat)) 5
    = ([ Print (format_output math_block);
         OpenFile (lit "assignments.ics");
         WriteFile (lit "assignments.ics") [];
         Print ([newline] ++ lit "Created calendar file: assignments.ics") ],
       Return 0)
  ∧ @main doomsday_server dates ics environ
      (user (Some [101]) (Some "all") None) 5
    = ([ Print (format_output [last_hour]);
         OpenFile (lit "assignments.ics") ],
       Raise OverflowError)
  ∧ @prompt_export_mode (user (Some [101]) None None) = lit "all".
Proof.
  split; [|split; [|split]].
  - etransitivity.
    + apply (proj1 (@main_exports server dates ics environ
                      (user (Some [101; 102]) (Some "all") None) 5%nat _ _
                      sample_courses (math_block ++ essay_block)
                      sample_configured ltac:(vm_compute; reflexivity)
                      ltac:(discriminate) ltac:(discriminate)
                      ltac:(vm_compute; reflexivity))).
      discriminate.
    + vm_compute. reflexivity.
  - etransitivity.
    + apply (proj1 (proj2 (@main_exports server dates ics environ
                             (user (Some [101]) (Some "select") (Some [1]%nat))
                             5%nat _ _ sample_courses math_block
                             sample_configured ltac:(vm_compute; reflexivity)
                             ltac:(discriminate) ltac:(discriminate)
                             ltac:(vm_compute; reflexivity)))
               [asg "Math" "Untitled" (Some "next Tuesday") None]).
      * reflexivity.
      * reflexivity.
      * discriminate.
    + vm_compute. reflexivity.
  - etransitivity.
    + apply (proj1 (@main_exports doomsday_server dates ics environ
                      (user (Some [101]) (Some "all") None) 5%nat _ _
                      [math] [last_hour]
                      sample_configured ltac:(vm_compute; reflexivity)
                      ltac:(discriminate) ltac:(discriminate)
                      ltac:(vm_compute; reflexivity))).
      discriminate.
    + vm_compute. reflexivity.
  - apply (proj2 (proj2 (@main_exports server dates ics environ
                           (user (Some [101]) None None)
                           5%nat _ _ sample_courses math_block
                           sample_configured ltac:(vm_compute; reflexivity)
                           ltac:(discriminate) ltac:(discriminate)
                           ltac:(vm_compute; reflexivity)))).
    reflexivity.
Defined.

Lemma other_exceptions_pass_through_main_witness :
  @main ancient_server dates ics environ (user (Some [101]) None None) 5
  = ([], Raise OverflowError).
Proof.
  apply (@other_exceptions_pass_through_main ancient_server dates ics environ
           (user (Some [101]) None None) 5%nat _ _ [math] OverflowError
           sample_configured).
  - vm_compute. reflexivity.
  - discriminate.
  - discriminate.
  - vm_compute. reflexivity.
  - reflexivity.
Defined.

Lemma missing_due_at_end_to_end_witness :
  ∃ a,
    @make_assignment dates (lit "Course 102") essay = Ok a
    ∧ due_at a = None
    ∧ (∀ before after,
         [bullet; space] ++ name a ++ [space; em_dash; space]
         ++ lit "No due date"
         ++ (if truthy (html_url a)
             then lit " (" ++ default [] (html_url a) ++ lit ")"
             else [])
         ∈ format_lines (before ++ a :: after) None [])
    ∧ format_output [a]
      = lstrip (join [newline]
                  [ []; lit "Course 102";
                    replicate (length (lit "Course 102")) hyphen;
                    [bullet; space] ++ name a ++ [space; em_dash; space]
                    ++ lit "No due date"
                    ++ (if truthy (html_url a)
                        then lit " (" ++ default [] (html_url a) ++ lit ")"
                        else []) ])
    ∧ (∀ before after filename,
         @create_ics dates ics (before ++ a :: after) filename
         = @create_ics dates ics (before ++ after) filename).
Proof.
  apply (@missing_due_at_end_to_end dates ics (lit "Course 102") essay).
  reflexivity.
Defined.

(** ** The base URL *)

Lemma rstrip_slash_snoc_slash (s : str) :
  rstrip_slash (s ++ [47%N]) = rstrip_slash s.
Proof. unfold rstrip_slash. rewrite reverse_snoc. reflexivity. Qed.

Lemma rstrip_slash_no_slash (b : str) :
  last b ≠ Some 47%N → rstrip_slash b = b.
Proof.
  destruct b as [|c b _] using rev_ind; [reflexivity|].
  rewrite last_snoc. intros Hc. unfold rstrip_slash. rewrite reverse_snoc.
  replace (c =? 47)%N with false
    by (symmetry; apply N.eqb_neq; congruence).
  rewrite reverse_cons, reverse_involutive. reflexivity.
Qed.

(** X18. Slashes at the end of [CANVAS_BASE_URL] do not matter: however
    many there are, [main] strips them all, so that the URL it asks for
    the courses is the base without them followed by "/api/v1/courses". *)
Theorem trailing_slashes_are_stripped (b : str) (k : nat) :
  last b ≠ Some 47%N →
  rstrip_slash (b ++ replicate k 47%N) = b
  ∧ courses_url (rstrip_slash (b ++ replicate k 47%N))
    = b ++ lit "/api/v1/courses".
Proof.
  intros Hb.
  assert (Hstrip : rstrip_slash (b ++ replicate k 47%N) = b).
  { induction k as [|k IH].
    - cbn [replicate]. rewrite app_nil_r. apply rstrip_slash_no_slash, Hb.
    - rewrite replicate_S_end, app_assoc, rstrip_slash_snoc_slash. exact IH. }
  rewrite Hstrip. split; reflexivity.
Qed.

Lemma trailing_slashes_are_stripped_witness :
  rstrip_slash (base ++ replicate 3 47%N) = base
  ∧ courses_url (rstrip_slash (base ++ replicate 3 47%N))
    = base ++ lit "/api/v1/courses".
Proof. apply (trailing_slashes_are_stripped base 3). discriminate. Defined.

(** ** The bound on the number of requests *)

Section Bound.
Context `{Http} `{DateLib}.

Lemma paginate_S fuel session url params :
  paginate (S fuel) session url params
  = if truthy url then
      match raise_for_status (session_get session (default [] url) params) with
      | Raised e => Throw e
      | Ok _ =>
          Yield (json (session_get session (default [] url) params))
            (paginate fuel session
               (links_next (session_get session (default [] url) params)) [])
      end
    else Stop.
Proof. reflexivity. Qed.

Lemma extend_all_paginate_S fuel :
  ∀ session url params acc r,
    extend_all acc (paginate fuel session url params) = r →
    r ≠ OutOfFuel →
    extend_all acc (paginate (S fuel) session url params) = r.
Proof.
  induction fuel as [|fuel IH]; intros session url params acc r Hrun Hr.
  - rewrite paginate_S. cbn [paginate] in Hrun.
    destruct (truthy url); [|exact Hrun].
    cbn [extend_all] in Hrun. congruence.
  - rewrite (paginate_S (S fuel) session url params).
    rewrite (paginate_S fuel session url params) in Hrun.
    destruct (truthy url); [|exact Hrun].
    destruct (raise_for_status _); [|exact Hrun].
    cbn [extend_all] in *. apply IH; assumption.
Qed.

Lemma extend_all_paginate_le fuel fuel' session url params acc r :
  (fuel ≤ fuel')%nat →
  extend_all acc (paginate fuel session url params) = r →
  r ≠ OutOfFuel →
  extend_all acc (paginate fuel' session url params) = r.
Proof.
  induction 1 as [|fuel' _ IH]; intros Hrun Hr; [exact Hrun|].
  apply extend_all_paginate_S; [apply IH; assumption | exact Hr].
Qed.

Lemma fetch_courses_le fuel fuel' session base_url r :
  (fuel ≤ fuel')%nat →
  fetch_courses fuel session base_url = r → r ≠ OutOfFuel →
  fetch_courses fuel' session base_url = r.
Proof. apply extend_all_paginate_le. Qed.

Lemma fetch_assignments_le fuel fuel' session base_url course_id r :
  (fuel ≤ fuel')%nat →
  fetch_assignments fuel session base_url course_id = r → r ≠ OutOfFuel →
  fetch_assignments fuel' session base_url course_id = r.
Proof. apply extend_all_paginate_le. Qed.

Lemma collect_loop_le fuel fuel' session base_url course_map ids :
  (fuel ≤ fuel')%nat →
  ∀ results r,
    collect_loop fuel session base_url course_map ids results = r →
    r ≠ OutOfFuel →
    collect_loop fuel' session base_url course_map ids results = r.
Proof.
  intros Hle. induction ids as [|id ids IH]; intros results r;
    cbn [collect_loop]; [auto|].
  destruct (course_map !! id) as [course|]; [|apply IH].
  destruct (fetch_assignments fuel session base_url id) as [items|e|code|]
    eqn:Hfetch.
  - rewrite (fetch_assignments_le _ _ _ _ _ _ Hle Hfetch)
      by discriminate.
    cbn [mbind outcome_bind].
    destruct (append_items _ items results); cbn [lift mbind outcome_bind];
      [apply IH | auto].
  - rewrite (fetch_assignments_le _ _ _ _ _ _ Hle Hfetch)
      by discriminate.
    auto.
  - rewrite (fetch_assignments_le _ _ _ _ _ _ Hle Hfetch)
      by discriminate.
    auto.
  - cbn [mbind outcome_bind]. intros <- Hr. contradiction.
Qed.

(** X19. The bound on the number of requests is no part of the result: a
    fetch or a collection that ends under one bound, with a value or an
    exception, ends the same way under every larger one. *)
Theorem a_larger_bound_changes_nothing fuel fuel' session base_url :
  (fuel ≤ fuel')%nat →
  (∀ r, fetch_courses fuel session base_url = r → r ≠ OutOfFuel →
        fetch_courses fuel' session base_url = r)
  ∧ (∀ course_id r,
       fetch_assignments fuel session base_url course_id = r →
       r ≠ OutOfFuel →
       fetch_assignments fuel' session base_url course_id = r)
  ∧ (∀ ids r,
       collect_assignments fuel session base_url ids = r → r ≠ OutOfFuel →
       collect_assignments fuel' session base_url ids = r).
Proof.
  intros Hle. split; [|split].
  - intros r. apply fetch_courses_le, Hle.
  - intros course_id r. apply fetch_assignments_le, Hle.
  - intros ids r. unfold collect_assignments.
    destruct (fetch_courses fuel session base_url) as [courses|e|code|]
      eqn:Hfetch.
    + rewrite (fetch_courses_le _ _ _ _ _ Hle Hfetch)
        by discriminate.
      cbn [mbind outcome_bind]. apply collect_loop_le, Hle.
    + rewrite (fetch_courses_le _ _ _ _ _ Hle Hfetch)
        by discriminate.
      auto.
    + rewrite (fetch_courses_le _ _ _ _ _ Hle Hfetch)
        by discriminate.
      auto.
    + cbn [mbind outcome_bind]. intros <- Hr. contradiction.
Qed.

End Bound.

Lemma a_larger_bound_changes_nothing_witness :
  @fetch_courses server 9 authorised base = Return sample_courses
  ∧ @fetch_assignments server 9 authorised base 103
    = Raise (HTTPError (lit "500 Server Error"))
  ∧ @collect_assignments server dates 9 authorised base [101]
    = Return math_block.
Proof.
  pose proof (@a_larger_bound_changes_nothing server dates 2%nat 9%nat
                authorised base ltac:(lia)) as (H1 & H2 & H3).
  split; [|split].
  - apply H1; [vm_compute; reflexivity | discriminate].
  - apply H2; [vm_compute; reflexivity | discriminate].
  - apply H3; [vm_compute; reflexivity | discriminate].
Defined.

Example groups_sample :
  groups (math_block ++ essay_block)
  = [(lit "Math", math_block); (lit "Course 102", essay_block)].
Proof. vm_compute. reflexivity. Qed.
